(** * luminous-ttv-ext: the MV3 service worker (ts/service_worker.js)

    A shallow embedding of the service worker that keeps the browser's
    declarativeNetRequest (DNR) rules in step with the reachability of the
    configured relay, and the properties of it that the specification states.

    Layout:
    - [Regex]: the regular expressions that the worker hands to the platform
      (DNR [regexFilter], [regexSubstitution]) or tests itself (JS regex
      literals), parsed from the source text of the patterns;
    - [Platform]: the browser capabilities the worker calls (rule stores,
      storage, fetch, tabs), as explicit state and an environment of answers;
    - [Worker]: the functions of service_worker.js, in source order;
    - the theorems. *)

From Stdlib Require Import ZArith Ascii String List Bool Lia.
From stdpp Require Import gmap strings list.

Set Warnings "-register-all".

Local Open Scope string_scope.
Local Open Scope list_scope.

(** ** Strings as character lists *)

Abbreviation chars := (list ascii) (only parsing).

Definition s2l (s : string) : chars := list_ascii_of_string s.
Definition l2s (l : chars) : string := string_of_list_ascii l.

Module Regex.

(** *** Syntax

    The fragment used by the worker: literals, escaped punctuation, [.],
    bracket classes without ranges, groups, the postfix operators [?], [*],
    [+], a leading [^] and [$]. *)

Inductive re : Type :=
| Eps
| Lit (a : ascii)
| Dot
| InSet (cs : chars)
| NotSet (cs : chars)
| Eol
| Seq (r1 r2 : re)
| Opt (r : re)
| Star (r : re)
| Plus (r : re)
| Group (n : nat) (r : re).

Record pattern : Type := Pattern {
  anchored : bool;        (* the pattern starts with ^ *)
  ignore_case : bool;     (* the i flag of a JS literal *)
  body : re
}.

Definition ascii_eqb (a b : ascii) : bool := Ascii.eqb a b.

Definition is_upper (a : ascii) : bool :=
  let n := nat_of_ascii a in (65 <=? n)%nat && (n <=? 90)%nat.

Definition lower (a : ascii) : ascii :=
  if is_upper a then ascii_of_nat (nat_of_ascii a + 32) else a.

Definition ch_eq (ci : bool) (a b : ascii) : bool :=
  if ci then ascii_eqb (lower a) (lower b) else ascii_eqb a b.

Definition mem (ci : bool) (x : ascii) (cs : chars) : bool :=
  existsb (ch_eq ci x) cs.

(** *** Parsing the source text of a pattern *)

Definition is_alnum (a : ascii) : bool :=
  let n := nat_of_ascii a in
  ((48 <=? n)%nat && (n <=? 57)%nat) ||
  ((65 <=? n)%nat && (n <=? 90)%nat) ||
  ((97 <=? n)%nat && (n <=? 122)%nat).

(** The members of a bracket class, up to the closing bracket. *)
Fixpoint parse_members (s : chars) (acc : chars) : option (chars * chars) :=
  match s with
  | [] => None
  | c :: t =>
      if ascii_eqb c "]" then Some (rev acc, t)
      else if ascii_eqb c "-" then None
      else if ascii_eqb c "\" then
        match t with
        | e :: t' => if is_alnum e then None else parse_members t' (e :: acc)
        | [] => None
        end
      else parse_members t (c :: acc)
  end.

Definition parse_class (s : chars) : option (re * chars) :=
  match s with
  | c :: t =>
      if ascii_eqb c "^" then
        match parse_members t [] with
        | Some (cs, rest) => Some (NotSet cs, rest)
        | None => None
        end
      else
        match parse_members s [] with
        | Some (cs, rest) => Some (InSet cs, rest)
        | None => None
        end
  | [] => None
  end.

Definition postfix (a : re) (rest : chars) : re * chars :=
  match rest with
  | q :: r =>
      if ascii_eqb q "?" then (Opt a, r)
      else if ascii_eqb q "*" then (Star a, r)
      else if ascii_eqb q "+" then (Plus a, r)
      else (a, rest)
  | [] => (a, rest)
  end.

(** A sequence of quantified atoms, up to a closing parenthesis or the end;
    [n] is the number of the next capturing group. *)
Fixpoint parse_seq (fuel : nat) (s : chars) (n : nat)
  : option (re * chars * nat) :=
  match fuel with
  | O => None
  | S f =>
      match s with
      | [] => Some (Eps, [], n)
      | c :: t =>
          if ascii_eqb c ")" then Some (Eps, s, n) else
          let atom : option (re * chars * nat) :=
            if ascii_eqb c "(" then
              match parse_seq f t (S n) with
              | Some (inner, c' :: t', n') =>
                  if ascii_eqb c' ")" then Some (Group n inner, t', n') else None
              | _ => None
              end
            else if ascii_eqb c "[" then
              match parse_class t with
              | Some (r, rest) => Some (r, rest, n)
              | None => None
              end
            else if ascii_eqb c "\" then
              match t with
              | e :: t' => if is_alnum e then None else Some (Lit e, t', n)
              | [] => None
              end
            else if ascii_eqb c "." then Some (Dot, t, n)
            else if ascii_eqb c "$" then Some (Eol, t, n)
            else if mem false c (s2l "|*+?^{}]") then None
            else Some (Lit c, t, n) in
          match atom with
          | None => None
          | Some (a, rest, n1) =>
              let '(a', rest') := postfix a rest in
              match parse_seq f rest' n1 with
              | Some (tl, rest'', n2) => Some (Seq a' tl, rest'', n2)
              | None => None
              end
          end
      end
  end.

Definition parse (ci : bool) (src : string) : option pattern :=
  let s := s2l src in
  let '(anch, s') :=
    match s with
    | c :: t => if ascii_eqb c "^" then (true, t) else (false, s)
    | [] => (false, s)
    end in
  match parse_seq (S (List.length s')) s' 1 with
  | Some (r, [], _) => Some (Pattern anch ci r)
  | _ => None
  end.

(** *** Matching

    Backtracking in the order of a leftmost, greedy matcher: [run] lists
    every way to match a prefix of the input, preferred way first, each with
    the rest of the input and the groups captured so far. *)

Abbreviation caps := (gmap nat chars) (only parsing).

Definition consumed (s s' : chars) : chars :=
  firstn (List.length s - List.length s') s.

Definition bind {A B} (l : list A) (f : A -> list B) : list B := flat_map f l.

(** Zero or more rounds of [step], longest first; a round that consumes
    nothing is not repeated. *)
Fixpoint star (fuel : nat) (step : chars -> caps -> list (chars * caps))
    (s : chars) (c : caps) : list (chars * caps) :=
  match fuel with
  | O => [(s, c)]
  | S f =>
      bind (step s c) (fun '(s1, c1) =>
        if (List.length s1 <? List.length s)%nat then star f step s1 c1 else [])
      ++ [(s, c)]
  end.

Fixpoint run (ci : bool) (r : re) (s : chars) (c : caps)
  : list (chars * caps) :=
  match r with
  | Eps => [(s, c)]
  | Lit a =>
      match s with
      | x :: s' => if ch_eq ci a x then [(s', c)] else []
      | [] => []
      end
  | Dot =>
      match s with
      | x :: s' => if ascii_eqb x "010" then [] else [(s', c)]
      | [] => []
      end
  | InSet cs =>
      match s with
      | x :: s' => if mem ci x cs then [(s', c)] else []
      | [] => []
      end
  | NotSet cs =>
      match s with
      | x :: s' => if mem ci x cs then [] else [(s', c)]
      | [] => []
      end
  | Eol => match s with [] => [(s, c)] | _ :: _ => [] end
  | Seq r1 r2 => bind (run ci r1 s c) (fun '(s1, c1) => run ci r2 s1 c1)
  | Opt r1 => run ci r1 s c ++ [(s, c)]
  | Star r1 => star (List.length s) (run ci r1) s c
  | Plus r1 =>
      bind (run ci r1 s c) (fun '(s1, c1) =>
        star (List.length s1) (run ci r1) s1 c1)
  | Group n r1 =>
      map (fun '(s1, c1) => (s1, <[n := consumed s s1]> c1)) (run ci r1 s c)
  end.

(** The result of a successful search: the text before the match, the match,
    the text after it and the captured groups. *)
Record found : Type := Found {
  before : chars;
  matched : chars;
  after : chars;
  groups : gmap nat chars
}.

Definition match_here (p : pattern) (pre s : chars) : option found :=
  match run (ignore_case p) (body p) s ∅ with
  | (rest, c) :: _ => Some (Found pre (consumed s rest) rest c)
  | [] => None
  end.

(** Leftmost match: try every start position in turn. *)
Fixpoint search (p : pattern) (pre s : chars) : option found :=
  match match_here p pre s with
  | Some f => Some f
  | None =>
      match s with
      | [] => None
      | x :: s' => search p (pre ++ [x]) s'
      end
  end.

Definition find (p : pattern) (s : string) : option found :=
  if anchored p then match_here p [] (s2l s) else search p [] (s2l s).

(** [RegExp.prototype.test], and whether a DNR [regexFilter] matches. *)
Definition test (p : pattern) (s : string) : bool :=
  match find p s with Some _ => true | None => false end.

(** *** Substitution

    The rewrite string of a DNR redirect: a backslash and a digit stand for
    a captured group (the whole match for 0, the empty text for a group that
    took no part), two backslashes for one; any other escape is invalid. *)

Definition digit_of (a : ascii) : option nat :=
  let n := nat_of_ascii a in
  if (48 <=? n)%nat && (n <=? 57)%nat then Some (n - 48)%nat else None.

Fixpoint expand (sub : chars) (f : found) : option chars :=
  match sub with
  | [] => Some []
  | c :: t =>
      if ascii_eqb c "\" then
        match t with
        | e :: t' =>
            match digit_of e with
            | Some d =>
                let g := if (d =? 0)%nat then matched f
                         else default [] (groups f !! d) in
                option_map (app g) (expand t' f)
            | None =>
                if ascii_eqb e "\" then option_map (cons e) (expand t' f)
                else None
            end
        | [] => None
        end
      else option_map (cons c) (expand t f)
  end.

(** The URL a redirect rule sends a matching URL to: the first match is
    replaced by the expanded substitution. *)
Definition substitute (p : pattern) (sub : string) (url : string)
  : option string :=
  match find p url with
  | Some f =>
      match expand (s2l sub) f with
      | Some e => Some (l2s (before f ++ e ++ after f))
      | None => None
      end
  | None => None
  end.

End Regex.

(** ** The platform: what the worker calls *)

Module Platform.

(** *** declarativeNetRequest rules *)

Inductive Action : Type :=
| Redirect (regexSubstitution : string)
| Block
| Allow.

Record Condition : Type := {
  regexFilter : string;
  resourceTypes : option (list string)
}.

Record Rule : Type := {
  id : Z;
  priority : Z;
  action : Action;
  condition : Condition
}.

Inductive Scope : Type := Dynamic | Session.

Definition remove_rules (m : gmap Z Rule) (ids : list Z) : gmap Z Rule :=
  foldr delete m ids.

(** Adding a rule whose identifier is already taken is an error. *)
Fixpoint add_rules (m : gmap Z Rule) (rs : list Rule) : option (gmap Z Rule) :=
  match rs with
  | [] => Some m
  | r :: rs' =>
      match m !! id r with
      | Some _ => None
      | None => add_rules (<[id r := r]> m) rs'
      end
  end.

(** [updateDynamicRules] / [updateSessionRules]: the rules named in
    [removeRuleIds] are removed first, then [addRules] are added; the whole
    call takes effect or none of it does. *)
Definition update_rules (m : gmap Z Rule) (removeRuleIds : list Z)
    (addRules : list Rule) : option (gmap Z Rule) :=
  add_rules (remove_rules m removeRuleIds) addRules.

(** *** How a rule's condition and redirect are read

    A rule applies to the URLs its [regexFilter] matches, read as written
    (letter case included); a redirect sends the URL to the expansion of its
    [regexSubstitution]. *)

Definition rule_matches (rule : Rule) (url : string) : bool :=
  match Regex.parse false (regexFilter (condition rule)) with
  | Some p => Regex.test p url
  | None => false
  end.

Definition redirect_target (rule : Rule) (url : string) : option string :=
  match action rule, Regex.parse false (regexFilter (condition rule)) with
  | Redirect sub, Some p => Regex.substitute p sub url
  | _, _ => None
  end.

(** *** fetch *)

Inductive Json : Type :=
| JNull
| JBool (b : bool)
| JNum (n : Z)
| JStr (s : string)
| JArr (items : list Json)
| JObj (members : list (string * Json)).

(** [res.json()] resolves to the parsed body or rejects. *)
Inductive Body : Type :=
| Parsed (data : Json)
| Unparseable.

Inductive FetchResult : Type :=
| FetchThrows
| Response (status : Z) (body : Body).

Definition ok (status : Z) : bool := (200 <=? status)%Z && (status <=? 299)%Z.

(** Property read [data?.online]: the last member named [key] of an object,
    undefined on anything else. *)
Fixpoint member (key : string) (ms : list (string * Json)) : option Json :=
  match ms with
  | [] => None
  | (k, v) :: ms' =>
      match member key ms' with
      | Some v' => Some v'
      | None => if String.eqb k key then Some v else None
      end
  end.

Definition get_member (data : Json) (key : string) : option Json :=
  match data with
  | JObj ms => member key ms
  | _ => None
  end.

(** *** storage, tabs *)

Inductive StorageResult : Type :=
| StorageThrows
| Items (address : option string).

Record Tab : Type := {
  tab_id : option Z;
  tab_url : option string
}.

Record Payload : Type := {
  maybeFake : bool;
  message : string
}.

(** The [context] argument of the notification path; a field is [None] when
    it does not have the JS type the worker checks for. *)
Record Context : Type := {
  tabId : option Z;
  url : option string
}.

(** *** What the platform answers during one run of a listener *)

Record Env : Type := {
  storage_get : StorageResult;
  fetch : string -> FetchResult;
  dnr_accepts : Scope -> list Z -> list Rule -> bool;
  tabs_query : option (list Tab);
  send_ok : Z -> bool
}.

(** *** Observable effects *)

Inductive Event : Type :=
| EvInstall (scope : Scope) (dynamicRules sessionRules : gmap Z Rule)
    (* a rule-install call returned; the rules then in force *)
| EvStorageGet
| EvFetch (url : string)
| EvNotify (context : option Context)
| EvSend (tabId : Z) (payload : Payload)
| EvTimeout (ms : Z) (tabId : Z) (payload : Payload)
| EvAlarm (name : string) (periodInMinutes : Z)
| EvConsoleError (msg : string).

Record State : Type := {
  dynamicRules : gmap Z Rule;
  sessionRules : gmap Z Rule;
  lastRelayOnline : option bool;
  events : list Event      (* oldest first *)
}.

(** *** A state monad for the worker's steps *)

Definition M (A : Type) : Type := State -> A * State.

Definition ret {A} (a : A) : M A := fun st => (a, st).

Definition mbind' {A B} (m : M A) (k : A -> M B) : M B :=
  fun st => let '(a, st') := m st in k a st'.

Definition emit (e : Event) : M unit :=
  fun st =>
    (tt, {| dynamicRules := dynamicRules st;
            sessionRules := sessionRules st;
            lastRelayOnline := lastRelayOnline st;
            events := events st ++ [e] |}).

Definition exec {A} (m : M A) (st : State) : State := snd (m st).

Fixpoint forEach {A} (l : list A) (f : A -> M unit) : M unit :=
  match l with
  | [] => ret tt
  | x :: l' => mbind' (f x) (fun _ => forEach l' f)
  end.

End Platform.

Declare Scope worker_scope.
Delimit Scope worker_scope with worker.
Notation "'let*' x ':=' m 'in' k" := (Platform.mbind' m (fun x => k))
  (at level 10, x name, m at level 100, k at level 200) : worker_scope.
Notation "m ;;; k" := (Platform.mbind' m (fun _ => k))
  (at level 100, k at level 200, right associativity) : worker_scope.

(** ** The service worker *)

Module Worker.
Import Platform.
Local Open Scope worker_scope.
Local Open Scope Z_scope.

Definition DEFAULT_ADDRESS : string := "http://localhost:9595".
Definition HEALTH_PATH : string := "/stat/".
Definition HEALTHCHECK_ALARM : string := "relay-healthcheck".
Definition HEALTHCHECK_PERIOD_MINUTES : Z := 1.

(** Dynamic (persistent) rule IDs *)
Definition AMAZON_ADS_BLOCK : Z := 1003.
Definition DYNAMIC_RULE_IDS : list Z := [AMAZON_ADS_BLOCK].

(** Dynamic allow-bypass rules *)
Definition LIVE_ALLOW : Z := 3001.
Definition VOD_ALLOW : Z := 3002.
Definition DYNAMIC_ALLOW_IDS : list Z := [LIVE_ALLOW; VOD_ALLOW].

(** Session (non-persistent) rule IDs for redirects *)
Definition LIVE_REDIRECT : Z := 2001.
Definition VOD_REDIRECT : Z := 2002.
Definition SESSION_RULE_IDS : list Z := [LIVE_REDIRECT; VOD_REDIRECT].

(** The patterns, as written in the source (a JS string literal writes each
    backslash twice; a regex literal writes [/] as backslash-slash). *)
Definition LIVE_FILTER : string :=
  "^https://usher\.ttvnw\.net/api/channel/hls/([^/?]+)\.m3u8(\?.*)?$".
Definition VOD_FILTER : string :=
  "^https://usher\.ttvnw\.net/vod/([^/?]+)\.m3u8(\?.*)?$".
Definition ADS_FILTER : string :=
  "^https?://([^.]+\.)?amazon-adsystem\.com/.*".
Definition SCHEME_RE : string := "^https?:".
Definition TWITCH_RE : string := "^https:\/\/([^.]+\.)?twitch\.tv\/".
Definition USHER_RE : string := "^https:\/\/usher\.ttvnw\.net\/".

(** [re.test(s)] for the source text [re] of a pattern. *)
Definition regex_test (ci : bool) (re : string) (s : string) : bool :=
  match Regex.parse ci re with
  | Some p => Regex.test p s
  | None => false
  end.

(** [s.endsWith(suffix)] and [s.slice(0, -1)]. *)
Fixpoint endsWith (s suffix : string) : bool :=
  String.eqb s suffix ||
  match s with
  | EmptyString => false
  | String _ s' => endsWith s' suffix
  end.

Fixpoint slice_0_m1 (s : string) : string :=
  match s with
  | EmptyString => EmptyString
  | String _ EmptyString => EmptyString
  | String c s' => String c (slice_0_m1 s')
  end.

(** [input || DEFAULT_ADDRESS]: an absent or empty input is falsy. *)
Definition or_default (input : option string) : string :=
  match input with
  | None => DEFAULT_ADDRESS
  | Some EmptyString => DEFAULT_ADDRESS
  | Some s => s
  end.

Definition normalizeBase (input : option string) : string :=
  let base := or_default input in
  let base := if negb (regex_test true SCHEME_RE base)
              then "http://" +:+ base else base in
  let base := if endsWith base "/" then slice_0_m1 base else base in
  base.

Definition HLS_TYPES : option (list string) :=
  Some ["xmlhttprequest"; "media"; "other"].

(** Build dynamic DNR rules based on the configured base address. *)
Definition liveRule (base : string) : Rule :=
  {| id := LIVE_REDIRECT;
     priority := 1;
     action := Redirect (base +:+ "/live/\1\2");
     condition := {| regexFilter := LIVE_FILTER; resourceTypes := HLS_TYPES |} |}.

Definition vodRule (base : string) : Rule :=
  {| id := VOD_REDIRECT;
     priority := 1;
     action := Redirect (base +:+ "/vod/\1\2");
     condition := {| regexFilter := VOD_FILTER; resourceTypes := HLS_TYPES |} |}.

Definition buildRedirectSessionRules (baseAddress : option string) : list Rule :=
  let base := normalizeBase baseAddress in
  [liveRule base; vodRule base].

Definition adsBlockRule : Rule :=
  {| id := AMAZON_ADS_BLOCK;
     priority := 1;
     action := Block;
     condition := {| regexFilter := ADS_FILTER; resourceTypes := None |} |}.

Definition liveAllow : Rule :=
  {| id := LIVE_ALLOW;
     priority := 100;
     action := Allow;
     condition := {| regexFilter := LIVE_FILTER; resourceTypes := HLS_TYPES |} |}.

Definition vodAllow : Rule :=
  {| id := VOD_ALLOW;
     priority := 100;
     action := Allow;
     condition := {| regexFilter := VOD_FILTER; resourceTypes := HLS_TYPES |} |}.

Definition offlinePayload : Payload :=
  {| maybeFake := false;
     message := "Proxy error, you will see ads. Is the server running?" |}.

Definition isTwitchNavigation (url : option string) : bool :=
  let u := default "" url in
  regex_test false TWITCH_RE u || regex_test false USHER_RE u.

(** What the listeners are called with. *)
Record NavDetails : Type := {
  frameId : Z;
  nav_tabId : Z;
  nav_url : string
}.

Inductive Trigger : Type :=
| OnInstalled
| OnStartup
| OnStorageChanged (area : string) (address : option (option string))
    (* [changes.address], when present, with its [newValue] *)
| OnAlarm (name : string)
| OnBeforeNavigate (details : NavDetails)
| OnHistoryStateUpdated (details : NavDetails)
| OnTabUpdated (tabId : Z) (status : option string) (tab_url : option string).

Section Listeners.

Context (env : Env).

Definition with_rules (scope : Scope) (m : gmap Z Rule) (st : State) : State :=
  match scope with
  | Dynamic =>
      {| dynamicRules := m; sessionRules := sessionRules st;
         lastRelayOnline := lastRelayOnline st; events := events st |}
  | Session =>
      {| dynamicRules := dynamicRules st; sessionRules := m;
         lastRelayOnline := lastRelayOnline st; events := events st |}
  end.

Definition rules_of (scope : Scope) (st : State) : gmap Z Rule :=
  match scope with
  | Dynamic => dynamicRules st
  | Session => sessionRules st
  end.

(** [chrome.declarativeNetRequest.update{Dynamic,Session}Rules]; the result
    tells whether the promise resolved. *)
Definition updateRules (scope : Scope) (removeRuleIds : list Z)
    (addRules : list Rule) : M bool :=
  fun st =>
    let '(done, st') :=
      if dnr_accepts env scope removeRuleIds addRules then
        match update_rules (rules_of scope st) removeRuleIds addRules with
        | Some m => (true, with_rules scope m st)
        | None => (false, st)
        end
      else (false, st) in
    (done, snd (emit (EvInstall scope (dynamicRules st') (sessionRules st')) st')).

Definition updateDynamicRules := updateRules Dynamic.
Definition updateSessionRules := updateRules Session.

Definition console_error (msg : string) : M unit := emit (EvConsoleError msg).

Definition addOrUpdateAdsBlockDynamicRule : M unit :=
  let* done := updateDynamicRules [AMAZON_ADS_BLOCK] [adsBlockRule] in
  if done then ret tt else console_error "Failed to set ads block rule:".

Definition setAllowBypassRules (enabled : bool) : M unit :=
  let removeRuleIds := DYNAMIC_ALLOW_IDS in
  let addRules := if enabled then [liveAllow; vodAllow] else [] in
  let* done := updateDynamicRules removeRuleIds addRules in
  if done then ret tt else console_error "Failed to update allow-bypass rules:".

Definition addRedirectSessionRules (baseAddress : option string) : M unit :=
  let rules := buildRedirectSessionRules baseAddress in
  let* done := updateSessionRules SESSION_RULE_IDS rules in
  if done then ret tt else console_error "Failed to add session redirect rules:".

Definition removeRedirectSessionRules : M unit :=
  let* done := updateSessionRules SESSION_RULE_IDS [] in
  if done then ret tt
  else console_error "Failed to remove session redirect rules:".

(** Cleanup: remove any old dynamic redirect rules from prior versions *)
Definition removeOldDynamicRedirectRules : M unit :=
  let oldIds := [1001; 1002] in
  let* _ := updateDynamicRules oldIds [] in
  ret tt.

Definition isRelayOnline (address : option string) : M bool :=
  let base := normalizeBase address in
  let url := base +:+ HEALTH_PATH in
  emit (EvFetch url) ;;;
  match fetch env url with
  | FetchThrows => ret false
  | Response status body =>
      if negb (ok status) then ret false
      else
        match body with
        | Parsed data =>
            match get_member data "online" with
            | Some (JBool b) => ret b
            | _ => ret true
            end
        | Unparseable => ret true
        end
  end.

Definition tabs_sendMessage (tabId : Z) (payload : Payload) : M bool :=
  emit (EvSend tabId payload) ;;;
  ret (send_ok env tabId).

Definition sendOfflineMessage (context : option Context) : M unit :=
  emit (EvNotify context) ;;;
  let payload := offlinePayload in
  match context with
  | Some {| tabId := Some tab; url := Some u |} =>
      if negb (regex_test false TWITCH_RE u) then ret tt
      else
        let* delivered := tabs_sendMessage tab payload in
        if delivered then ret tt
        else
          (* Retry shortly in case the content script hasn't loaded yet *)
          emit (EvTimeout 500 tab payload)
  | _ =>
      (* Broadcast to all Twitch tabs *)
      match tabs_query env with
      | None => ret tt
      | Some tabs =>
          forEach tabs (fun t =>
            match tab_id t, tab_url t with
            | Some i, Some _ =>
                if i =? 0 then ret tt
                else let* _ := tabs_sendMessage i payload in ret tt
            | _, _ => ret tt
            end)
      end
  end.

Definition set_lastRelayOnline (online : bool) : M unit :=
  fun st =>
    (tt, {| dynamicRules := dynamicRules st;
            sessionRules := sessionRules st;
            lastRelayOnline := Some online;
            events := events st |}).

Definition get_lastRelayOnline : M (option bool) :=
  fun st => (lastRelayOnline st, st).

Definition applyOnlineState (online : bool) (address : option string)
    (context : option Context) : M unit :=
  (if online then
     setAllowBypassRules false ;;;
     addRedirectSessionRules address
   else
     setAllowBypassRules true ;;;
     (* Notify user if transitioning to offline (or unknown->offline) *)
     let* last := get_lastRelayOnline in
     match last with
     | Some false => ret tt
     | _ => sendOfflineMessage context
     end) ;;;
  set_lastRelayOnline online.

(** [const { address = DEFAULT_ADDRESS } = await chrome.storage.sync.get(...)]:
    [None] when the call throws. *)
Definition storage_address : M (option string) :=
  emit EvStorageGet ;;;
  match storage_get env with
  | StorageThrows => ret None
  | Items None => ret (Some DEFAULT_ADDRESS)
  | Items (Some a) => ret (Some a)
  end.

Definition applyRulesFromStorage : M unit :=
  let* got := storage_address in
  match got with
  | Some address =>
      addOrUpdateAdsBlockDynamicRule ;;;
      (* Always clear session redirects first *)
      removeRedirectSessionRules ;;;
      (* Apply redirects only if relay is online *)
      let* online := isRelayOnline (Some address) in
      applyOnlineState online (Some address) None
  | None => console_error "Failed to read storage/apply rules:"
  end.

Definition alarms_create (name : string) (periodInMinutes : Z) : M unit :=
  emit (EvAlarm name periodInMinutes).

(** Initialize on startup/installation. The listener starts the cleanup and
    the reconcile without awaiting them; the model takes their calls in
    program order, one listener run at a time. *)
Definition onInstalled : M unit :=
  removeOldDynamicRedirectRules ;;;
  applyRulesFromStorage ;;;
  alarms_create HEALTHCHECK_ALARM HEALTHCHECK_PERIOD_MINUTES.

Definition onStartup : M unit :=
  removeOldDynamicRedirectRules ;;;
  applyRulesFromStorage ;;;
  alarms_create HEALTHCHECK_ALARM HEALTHCHECK_PERIOD_MINUTES.

Definition onStorageChanged (area : string)
    (address : option (option string)) : M unit :=
  match address with
  | Some newValue =>
      if String.eqb area "sync" then
        let next := or_default newValue in
        let* online := isRelayOnline (Some next) in
        removeRedirectSessionRules ;;;
        applyOnlineState online (Some next) None
      else ret tt
  | None => ret tt
  end.

Definition onAlarm (name : string) : M unit :=
  if negb (String.eqb name HEALTHCHECK_ALARM) then ret tt
  else
    let* got := storage_address in
    match got with
    | Some address =>
        let* online := isRelayOnline (Some address) in
        removeRedirectSessionRules ;;;
        applyOnlineState online (Some address) None
    | None => ret tt
    end.

Definition refreshRulesNow (context : Context) : M unit :=
  let* got := storage_address in
  match got with
  | Some address =>
      let* online := isRelayOnline (Some address) in
      removeRedirectSessionRules ;;;
      applyOnlineState online (Some address) (Some context)
  | None => ret tt
  end.

Definition onNavigation (details : NavDetails) : M unit :=
  if negb (frameId details =? 0) then ret tt
  else if negb (isTwitchNavigation (Some (nav_url details))) then ret tt
  else refreshRulesNow {| tabId := Some (nav_tabId details);
                          url := Some (nav_url details) |}.

Definition onTabUpdated (tab : Z) (status : option string)
    (tab_url : option string) : M unit :=
  match status with
  | Some "complete"%string =>
      let u := default ""%string tab_url in
      if negb (isTwitchNavigation (Some u)) then ret tt
      else
        let* last := get_lastRelayOnline in
        match last with
        | Some false => sendOfflineMessage (Some {| tabId := Some tab; url := Some u |})
        | _ => ret tt
        end
  | _ => ret tt
  end.

Definition handle (t : Trigger) : M unit :=
  match t with
  | OnInstalled => onInstalled
  | OnStartup => onStartup
  | OnStorageChanged area address => onStorageChanged area address
  | OnAlarm name => onAlarm name
  | OnBeforeNavigate details => onNavigation details
  | OnHistoryStateUpdated details => onNavigation details
  | OnTabUpdated tab status tab_url => onTabUpdated tab status tab_url
  end.

End Listeners.

(** The worker at its start: no rule known to it, no state observed. *)
Definition initial : State :=
  {| dynamicRules := ∅; sessionRules := ∅;
     lastRelayOnline := None; events := [] |}.

End Worker.

(** ** Declarative reading of the matcher

    [matches ci r s c s' c']: [r] can match a prefix of [s], leaving [s'],
    and turn the captured groups [c] into [c']. *)

Module RegexSem.
Import Regex.

Inductive iter (step : chars -> gmap nat chars -> chars -> gmap nat chars -> Prop)
  : chars -> gmap nat chars -> chars -> gmap nat chars -> Prop :=
| iter_stop s c : iter step s c s c
| iter_more s c s1 c1 s2 c2 :
    step s c s1 c1 ->
    (List.length s1 < List.length s)%nat ->
    iter step s1 c1 s2 c2 ->
    iter step s c s2 c2.

Fixpoint matches (ci : bool) (r : re) (s : chars) (c : gmap nat chars)
    (s' : chars) (c' : gmap nat chars) : Prop :=
  match r with
  | Eps => s' = s /\ c' = c
  | Lit a => exists x, s = x :: s' /\ ch_eq ci a x = true /\ c' = c
  | Dot => exists x, s = x :: s' /\ ascii_eqb x "010" = false /\ c' = c
  | InSet cs => exists x, s = x :: s' /\ mem ci x cs = true /\ c' = c
  | NotSet cs => exists x, s = x :: s' /\ mem ci x cs = false /\ c' = c
  | Eol => s = [] /\ s' = [] /\ c' = c
  | Seq r1 r2 =>
      exists s1 c1, matches ci r1 s c s1 c1 /\ matches ci r2 s1 c1 s' c'
  | Opt r1 => matches ci r1 s c s' c' \/ (s' = s /\ c' = c)
  | Star r1 => iter (matches ci r1) s c s' c'
  | Plus r1 =>
      exists s1 c1, matches ci r1 s c s1 c1 /\ iter (matches ci r1) s1 c1 s' c'
  | Group n r1 =>
      exists c1, matches ci r1 s c s' c1 /\ c' = <[n := consumed s s']> c1
  end.

(** A run of literal characters followed by [r]. *)
Definition lits (w : list ascii) (r : re) : re :=
  fold_right (fun a r => Seq (Lit a) r) r w.

(** Character classes, as tests. *)
Definition not_in (cs : list ascii) (x : ascii) : bool := negb (mem false x cs).
Definition not_newline (x : ascii) : bool := negb (ascii_eqb x "010").

End RegexSem.

(** ** Vocabulary of the specification *)

Module Spec.
Import Platform Worker.
Local Open Scope Z_scope.

(** The two logical routes and their fixed rule identifiers. *)
Inductive Route : Type := Live | Vod.

Definition redirect_id (r : Route) : Z :=
  match r with Live => LIVE_REDIRECT | Vod => VOD_REDIRECT end.

Definition allow_id (r : Route) : Z :=
  match r with Live => LIVE_ALLOW | Vod => VOD_ALLOW end.

Definition redirect_rule (r : Route) (base : string) : Rule :=
  match r with Live => liveRule base | Vod => vodRule base end.

Definition allow_rule (r : Route) : Rule :=
  match r with Live => liveAllow | Vod => vodAllow end.

Definition present (m : gmap Z Rule) (i : Z) : bool :=
  match m !! i with Some _ => true | None => false end.

(** A category is active for a route when its rule is installed. *)
Definition redirect_active (r : Route) (dyn ses : gmap Z Rule) : bool :=
  present ses (redirect_id r).

Definition allow_active (r : Route) (dyn ses : gmap Z Rule) : bool :=
  present dyn (allow_id r).

Definition exactly_one (r : Route) (dyn ses : gmap Z Rule) : bool :=
  xorb (redirect_active r dyn ses) (allow_active r dyn ses).

Definition both_active (r : Route) (dyn ses : gmap Z Rule) : bool :=
  redirect_active r dyn ses && allow_active r dyn ses.

Definition none_active (r : Route) (dyn ses : gmap Z Rule) : bool :=
  negb (redirect_active r dyn ses) && negb (allow_active r dyn ses).

(** The platform accepts every rule-install call. *)
Definition installs_accepted (env : Env) : Prop :=
  forall scope removeRuleIds addRules,
    dnr_accepts env scope removeRuleIds addRules = true.

(** The listeners that carry out a reconcile (the tab-load listener only
    re-sends the message). *)
Definition is_reconcile (t : Trigger) : bool :=
  match t with OnTabUpdated _ _ _ => false | _ => true end.

Definition stored_address (env : Env) : option string :=
  match storage_get env with
  | StorageThrows => None
  | Items None => Some DEFAULT_ADDRESS
  | Items (Some a) => Some a
  end.

(** The base address a listener run reconciles against: none when its guard
    turns the event away or the configuration cannot be read. *)
Definition address_of (env : Env) (t : Trigger) : option string :=
  match t with
  | OnInstalled | OnStartup => stored_address env
  | OnStorageChanged area (Some newValue) =>
      if String.eqb area "sync" then Some (or_default newValue) else None
  | OnStorageChanged _ None => None
  | OnAlarm name =>
      if String.eqb name HEALTHCHECK_ALARM then stored_address env else None
  | OnBeforeNavigate d | OnHistoryStateUpdated d =>
      if (frameId d =? 0) && isTwitchNavigation (Some (nav_url d))
      then stored_address env else None
  | OnTabUpdated _ _ _ => None
  end.

(** The health the probe reports for an address. *)
Definition probe (env : Env) (address : string) : bool :=
  fst (isRelayOnline env (Some address) initial).

Definition observed (env : Env) (t : Trigger) : option bool :=
  option_map (probe env) (address_of env t).

(** Listener runs taken one after the other: each run ends before the next
    starts, and has the answers the platform gives during it. The worker
    itself keeps no such order: a run goes on when the call it awaits
    returns, and the calls of another run can land in between (module
    [Overlap] below). What is stated over [run_all] is stated for runs that
    do not overlap. *)
Definition run_all (steps : list (Env * Trigger)) (st : State) : State :=
  fold_left (fun st '(env, t) => exec (handle env t) st) steps st.

(** Calls of the offline notification, in order. *)
Definition notifications (evs : list Event) : list (option Context) :=
  flat_map (fun e => match e with EvNotify c => [c] | _ => [] end) evs.

(** Messages handed to [chrome.tabs.sendMessage], in order. *)
Definition sends (evs : list Event) : list (Z * Payload) :=
  flat_map (fun e => match e with EvSend t p => [(t, p)] | _ => [] end) evs.

Definition fetches (evs : list Event) : list string :=
  flat_map (fun e => match e with EvFetch u => [u] | _ => [] end) evs.

(** The rules in force each time a rule-install call has returned. *)
Definition installs (evs : list Event) : list (gmap Z Rule * gmap Z Rule) :=
  flat_map (fun e => match e with EvInstall _ d s => [(d, s)] | _ => [] end) evs.

(** Transitions into Offline along a sequence of observations, from the
    held state [held]; a run that observes nothing leaves it alone. *)
Fixpoint offline_edges (held : option bool) (obs : list (option bool)) : nat :=
  match obs with
  | [] => 0
  | None :: rest => offline_edges held rest
  | Some online :: rest =>
      (match online, held with
       | false, Some false => 0
       | false, _ => 1
       | true, _ => 0
       end + offline_edges (Some online) rest)%nat
  end.

(** The installed rule set and the held state. *)
Definition view (st : State) : gmap Z Rule * gmap Z Rule * option bool :=
  (dynamicRules st, sessionRules st, lastRelayOnline st).

(** The startup listeners also drop the rules of prior versions and install
    the ad-block rule. *)
Definition ensures_ad_block (t : Trigger) : bool :=
  match t with OnInstalled | OnStartup => true | _ => false end.

(** The startup work has been done: the ad-block rule is installed and no
    rule of a prior version remains. *)
Definition startup_done (dyn : gmap Z Rule) : Prop :=
  dyn !! AMAZON_ADS_BLOCK = Some adsBlockRule /\
  dyn !! 1001 = None /\ dyn !! 1002 = None.

(** The same platform, with another answer of the configuration store. *)
Definition with_storage_get (r : StorageResult) (env : Env) : Env :=
  {| storage_get := r; fetch := fetch env; dnr_accepts := dnr_accepts env;
     tabs_query := tabs_query env; send_ok := send_ok env |}.

(** The listeners that read the configuration store. *)
Definition reads_config (t : Trigger) : bool :=
  match t with
  | OnStorageChanged _ _ | OnTabUpdated _ _ _ => false
  | _ => true
  end.

(** Scheme-qualified, as the worker itself tests it. *)
Definition scheme_qualified (s : string) : bool := regex_test true SCHEME_RE s.

(** One trailing slash, if there is one, removed. *)
Definition strip_slash (s : string) : string :=
  if endsWith s "/" then slice_0_m1 s else s.

End Spec.

(** ** What each step leaves behind

    The rule stores after a successful call of each install function, and
    the events of one call of the notification path. *)

Module Effects.
Import Platform Worker.
Local Open Scope Z_scope.

(** Session rules after [removeRedirectSessionRules] and
    [addRedirectSessionRules]. *)
Definition redirects_off (ses : gmap Z Rule) : gmap Z Rule :=
  delete LIVE_REDIRECT (delete VOD_REDIRECT ses).

Definition redirects_on (base : string) (ses : gmap Z Rule) : gmap Z Rule :=
  <[VOD_REDIRECT := vodRule base]>
    (<[LIVE_REDIRECT := liveRule base]> (redirects_off ses)).

(** Dynamic rules after [setAllowBypassRules] with false and with true. *)
Definition allow_off (dyn : gmap Z Rule) : gmap Z Rule :=
  delete LIVE_ALLOW (delete VOD_ALLOW dyn).

Definition allow_on (dyn : gmap Z Rule) : gmap Z Rule :=
  <[VOD_ALLOW := vodAllow]> (<[LIVE_ALLOW := liveAllow]> (allow_off dyn)).

(** Dynamic rules after [addOrUpdateAdsBlockDynamicRule] and after
    [removeOldDynamicRedirectRules]. *)
Definition ads_on (dyn : gmap Z Rule) : gmap Z Rule :=
  <[AMAZON_ADS_BLOCK := adsBlockRule]> (delete AMAZON_ADS_BLOCK dyn).

Definition old_off (dyn : gmap Z Rule) : gmap Z Rule :=
  delete 1001 (delete 1002 dyn).

(** The error logged when an install call is rejected. *)
Definition report (done : bool) (msg : string) : list Event :=
  if done then [] else [EvConsoleError msg].

(** What one call of the notification path sends. *)
Definition broadcast (env : Env) : list Event :=
  match tabs_query env with
  | None => []
  | Some tabs =>
      flat_map (fun t =>
        match tab_id t, tab_url t with
        | Some i, Some _ => if i =? 0 then [] else [EvSend i offlinePayload]
        | _, _ => []
        end) tabs
  end.

Definition deliveries (env : Env) (context : option Context) : list Event :=
  match context with
  | Some {| tabId := Some tab; url := Some u |} =>
      if regex_test false TWITCH_RE u then
        EvSend tab offlinePayload ::
        (if send_ok env tab then [] else [EvTimeout 500 tab offlinePayload])
      else []
  | _ => broadcast env
  end.

(** The rule set and held state a completed reconcile leaves behind. *)
Definition reconciled (startup : bool) (address : string) (online : bool)
    (v : gmap Z Rule * gmap Z Rule * option bool)
  : gmap Z Rule * gmap Z Rule * option bool :=
  let '(dyn, ses, _) := v in
  let dyn := if startup then ads_on (old_off dyn) else dyn in
  if online
  then (allow_off dyn, redirects_on (normalizeBase (Some address)) ses, Some true)
  else (allow_on dyn, redirects_off ses, Some false).

End Effects.

(** ** The URLs the patterns are about *)

Module Patterns.
Import Platform Worker Spec Regex RegexSem.

(** Starts with http: or https:, in any letter case. *)
Definition has_scheme (s : string) : bool :=
  match s with
  | String c1 (String c2 (String c3 (String c4 (String c5 rest)))) =>
      ch_eq true "h" c1 && ch_eq true "t" c2 && ch_eq true "t" c3 &&
      ch_eq true "p" c4 &&
      ((ch_eq true "s" c5 &&
        match rest with String c6 _ => ch_eq true ":" c6 | EmptyString => false end)
       || ch_eq true ":" c5)
  | _ => false
  end.

(** A non-empty host label: no dot in it. *)
Definition dns_label (l : string) : bool :=
  negb (String.eqb l "") && forallb (not_in ["."%char]) (s2l l).

(** An ad-system URL: http or https, the host itself or one label below it. *)
Definition ads_url (secure : bool) (label : option string) (path : string)
  : string :=
  (if secure then "https" else "http") +:+ "://" +:+
  match label with Some l => l +:+ "." | None => "" end +:+
  "amazon-adsystem.com/" +:+ path.

(** The playlist URLs of the two routes, and where the relay serves them. *)
Definition usher_prefix (r : Route) : string :=
  match r with
  | Live => "https://usher.ttvnw.net/api/channel/hls/"
  | Vod => "https://usher.ttvnw.net/vod/"
  end.

Definition relay_path (r : Route) : string :=
  match r with Live => "/live/" | Vod => "/vod/" end.

(** A playlist id has no slash and no question mark; a query is empty or a
    question mark followed by anything on one line. *)
Definition hls_id (id : string) : bool :=
  negb (String.eqb id "") && forallb (not_in ["/"; "?"]%char) (s2l id).

Definition hls_query (q : string) : bool :=
  match q with
  | EmptyString => true
  | String c q' => ascii_eqb c "?" && forallb not_newline (s2l q')
  end.

Definition hls_url (r : Route) (id q : string) : string :=
  usher_prefix r +:+ id +:+ ".m3u8" +:+ q.

Definition not_backslash (x : ascii) : bool := negb (ascii_eqb x "\").

(** The body of the live and vod filters. *)
Definition hls_body (r : Route) : re :=
  lits (s2l (usher_prefix r))
    (Seq (Group 1 (Seq (Plus (NotSet ["/"; "?"]%char)) Eps))
      (lits (s2l ".m3u8")
        (Seq (Opt (Group 2 (Seq (Lit "?") (Seq (Star Dot) Eps))))
          (Seq Eol Eps)))).

End Patterns.

(** ** Sample platforms and states *)

Module Examples.
Import Platform Worker.
Local Open Scope Z_scope.

(** A relay that cannot be reached. *)
Definition offline_env : Env :=
  {| storage_get := Items None;
     fetch := fun _ => FetchThrows;
     dnr_accepts := fun _ _ _ => true;
     tabs_query := Some [];
     send_ok := fun _ => true |}.

(** A relay that answers 200 and reports itself offline. *)
Definition degraded_env : Env :=
  {| storage_get := Items None;
     fetch := fun _ => Response 200 (Parsed (JObj [("online", JBool false)]));
     dnr_accepts := fun _ _ _ => true;
     tabs_query := Some [];
     send_ok := fun _ => true |}.

(** A configuration store whose read throws. *)
Definition unreadable_env : Env :=
  {| storage_get := StorageThrows;
     fetch := fun _ => Response 200 Unparseable;
     dnr_accepts := fun _ _ _ => true;
     tabs_query := Some [];
     send_ok := fun _ => true |}.

(** A relay that answers 200 with a body that is not JSON. *)
Definition online_env : Env :=
  {| storage_get := Items None;
     fetch := fun _ => Response 200 Unparseable;
     dnr_accepts := fun _ _ _ => true;
     tabs_query := Some [];
     send_ok := fun _ => true |}.

(** The state a completed Online reconcile at startup leaves behind. *)
Definition online_state : State :=
  {| dynamicRules := {[AMAZON_ADS_BLOCK := adsBlockRule]};
     sessionRules := {[LIVE_REDIRECT := liveRule DEFAULT_ADDRESS;
                       VOD_REDIRECT := vodRule DEFAULT_ADDRESS]};
     lastRelayOnline := Some true;
     events := [] |}.

(** The state a completed Offline reconcile leaves behind. *)
Definition offline_state : State :=
  {| dynamicRules := {[LIVE_ALLOW := liveAllow; VOD_ALLOW := vodAllow]};
     sessionRules := ∅;
     lastRelayOnline := Some false;
     events := [] |}.

End Examples.

(** ** What the worker owns, and what its log shows *)

Module Ownership.
Import Platform Worker.
Local Open Scope Z_scope.

(** The identifiers the worker installs or removes rules under. *)
Definition dynamic_ids : list Z :=
  DYNAMIC_RULE_IDS ++ DYNAMIC_ALLOW_IDS ++ [1001; 1002].

Definition session_ids : list Z := SESSION_RULE_IDS.

(** The rules the worker installs. *)
Definition own_dynamic (rule : Rule) : Prop :=
  rule = adsBlockRule \/ rule = liveAllow \/ rule = vodAllow.

Definition own_session (rule : Rule) : Prop :=
  exists base, rule = liveRule base \/ rule = vodRule base.


(** Projections of the event log. *)
Definition alarms (evs : list Event) : list (string * Z) :=
  flat_map (fun e => match e with EvAlarm n p => [(n, p)] | _ => [] end) evs.

Definition errors (evs : list Event) : list string :=
  flat_map (fun e => match e with EvConsoleError m => [m] | _ => [] end) evs.

Definition timeouts (evs : list Event) : list (Z * Z * Payload) :=
  flat_map (fun e => match e with EvTimeout ms t p => [(ms, t, p)] | _ => [] end) evs.

(** What one install call logs: its message when it is rejected. *)
Definition complaint (accepted : bool) (msg : string) : list string :=
  if accepted then [] else [msg].

(** The notification path only writes to tabs. *)
Definition message_event (e : Event) : bool :=
  match e with EvSend _ _ | EvTimeout _ _ _ => true | _ => false end.

(** The tabs a broadcast writes to: those with a non-zero id and a URL. *)
Definition listed (tabs : list Tab) : list Z :=
  flat_map (fun t =>
    match tab_id t, tab_url t with
    | Some i, Some _ => if i =? 0 then [] else [i]
    | _, _ => []
    end) tabs.

(** The tab and URL a notification is addressed to: both fields of the
    context must be there. *)
Definition addressed (context : option Context) : option (Z * string) :=
  match context with
  | Some {| tabId := Some tab; url := Some u |} => Some (tab, u)
  | _ => None
  end.

(** The tabs one call of the notification path writes to at once. *)
Definition recipients (env : Env) (context : option Context) : list Z :=
  match addressed context with
  | Some (tab, u) => if regex_test false TWITCH_RE u then [tab] else []
  | None => listed (default [] (tabs_query env))
  end.

(** The context a listener hands to the notification path. *)
Definition context_of (t : Trigger) : option Context :=
  match t with
  | OnBeforeNavigate d | OnHistoryStateUpdated d =>
      Some {| tabId := Some (nav_tabId d); url := Some (nav_url d) |}
  | _ => None
  end.

(** The tests of the tab-load listener. *)
Definition is_complete (status : option string) : bool :=
  match status with Some s => String.eqb s "complete" | None => false end.

Definition known_offline (held : option bool) : bool :=
  match held with Some false => true | _ => false end.

End Ownership.

(** ** The sites the worker watches *)

Module Sites.
Import Regex Spec Patterns.

Definition label_ok (label : option string) : bool :=
  match label with Some l => dns_label l | None => true end.

(** A twitch.tv page: https, the host itself or one label below it. *)
Definition twitch_url (label : option string) (rest : string) : string :=
  "https://" +:+
  match label with Some l => l +:+ "." | None => "" end +:+
  "twitch.tv/" +:+ rest.

(** Anything on the playlist host. *)
Definition usher_url (rest : string) : string :=
  "https://usher.ttvnw.net/" +:+ rest.

(** The optional host label of the ad-block and twitch.tv patterns. *)
Definition opt_label : re :=
  Opt (Group 1 (Seq (Plus (NotSet ["."%char])) (Seq (Lit ".") Eps))).

End Sites.

(** ** More sample platforms and states *)

Module Samples.
Import Platform Worker.
Local Open Scope Z_scope.

(** An unreachable relay on a platform that rejects every install call. *)
Definition rejecting_env : Env :=
  {| storage_get := Items None;
     fetch := fun _ => FetchThrows;
     dnr_accepts := fun _ _ _ => false;
     tabs_query := Some [];
     send_ok := fun _ => true |}.

(** An unreachable relay with four tabs listed, one of them without an id
    and one with id 0; no content script answers. *)
Definition crowded_env : Env :=
  {| storage_get := Items (Some "localhost:9595/");
     fetch := fun _ => FetchThrows;
     dnr_accepts := fun _ _ _ => true;
     tabs_query :=
       Some [ {| tab_id := Some 3; tab_url := Some "https://www.twitch.tv/a" |};
              {| tab_id := None; tab_url := Some "https://www.twitch.tv/b" |};
              {| tab_id := Some 0; tab_url := Some "https://www.twitch.tv/c" |};
              {| tab_id := Some 5; tab_url := Some "https://m.twitch.tv/d" |} ];
     send_ok := fun _ => false |}.

(** A state with a rule of another owner in each store. *)
Definition foreign_rule (i : Z) : Rule :=
  {| id := i; priority := 7; action := Block;
     condition := {| regexFilter := "^https://example\.org/";
                     resourceTypes := None |} |}.

Definition shared_state : State :=
  {| dynamicRules := {[42 := foreign_rule 42]};
     sessionRules := {[43 := foreign_rule 43]};
     lastRelayOnline := None;
     events := [] |}.

(** A top-frame navigation to a playlist URL. *)
Definition usher_navigation : NavDetails :=
  {| frameId := 0; nav_tabId := 7;
     nav_url := "https://usher.ttvnw.net/vod/1.m3u8" |}.

(** A top-frame navigation to a channel page. *)
Definition twitch_navigation : NavDetails :=
  {| frameId := 0; nav_tabId := 7;
     nav_url := "https://www.twitch.tv/somechannel" |}.

(** A reachable relay (its health body does not parse, which counts as
    Online) on a platform that rejects the calls that add session rules and
    accepts every other call. *)
Definition add_rejecting_env : Env :=
  {| storage_get := Items None;
     fetch := fun _ => Response 200 Unparseable;
     dnr_accepts := fun scope _ addRules =>
       match scope, addRules with
       | Session, _ :: _ => false
       | _, _ => true
       end;
     tabs_query := Some [];
     send_ok := fun _ => true |}.

End Samples.

(** ** Runs that overlap

    The listeners take no lock. A run goes on when the call it awaits
    returns, and until then the calls of another run can land on the same
    rule stores and the same held state. A run is given here by its steps in
    order: one step for each awaited call, and one for the turn that ends
    the run. Two runs that overlap alternate their steps. *)

Module Overlap.
Import Platform Worker.
Local Open Scope worker_scope.

Definition play (steps : list (State -> State)) (st : State) : State :=
  fold_left (fun st step => step st) steps st.

Fixpoint alternate {A : Type} (l1 l2 : list A) : list A :=
  match l1, l2 with
  | x :: l1', y :: l2' => x :: y :: alternate l1' l2'
  | [], _ => l2
  | _, [] => l1
  end.

(** The alarm listener when it reads [address] and finds the relay Online:
    [storage.sync.get], [isRelayOnline], [removeRedirectSessionRules],
    then in [applyOnlineState] [setAllowBypassRules(false)],
    [addRedirectSessionRules] and [lastRelayOnline = online]. *)
Definition alarm_steps_online (env : Env) (address : string)
    : list (State -> State) :=
  [ exec (storage_address env);
    exec (isRelayOnline env (Some address));
    exec (removeRedirectSessionRules env);
    exec (setAllowBypassRules env false);
    exec (addRedirectSessionRules env (Some address));
    exec (set_lastRelayOnline true) ].

(** [refreshRulesNow] for a navigation when it reads [address] and finds the
    relay Offline: [storage.sync.get], [isRelayOnline],
    [removeRedirectSessionRules], then in [applyOnlineState]
    [setAllowBypassRules(true)] and the turn that notifies unless the held
    state is Offline and sets [lastRelayOnline = online]. *)
Definition navigation_steps_offline (env : Env) (address : string)
    (details : NavDetails) : list (State -> State) :=
  [ exec (storage_address env);
    exec (isRelayOnline env (Some address));
    exec (removeRedirectSessionRules env);
    exec (setAllowBypassRules env true);
    exec (let* last := get_lastRelayOnline in
          match last with
          | Some false => ret tt
          | _ => sendOfflineMessage env
                   (Some {| tabId := Some (nav_tabId details);
                            url := Some (nav_url details) |})
          end ;;;
          set_lastRelayOnline false) ].

End Overlap.

(** * Properties *)

(** ** Character lists and strings *)

Lemma s2l_app (a b : string) : s2l (a +:+ b) = s2l a ++ s2l b.
Proof. induction a as [|x a IH]; simpl; [reflexivity | now rewrite <- IH]. Qed.

Lemma l2s_s2l (s : string) : l2s (s2l s) = s.
Proof. apply string_of_list_ascii_of_string. Qed.

Lemma s2l_l2s (l : list ascii) : s2l (l2s l) = l.
Proof. apply list_ascii_of_string_of_list_ascii. Qed.

Lemma l2s_app (a b : list ascii) : l2s (a ++ b) = l2s a +:+ l2s b.
Proof.
  induction a as [|x a IH]; [reflexivity|].
  change (String x (l2s (a ++ b)) = String x (l2s a +:+ l2s b)).
  now rewrite IH.
Qed.

Lemma s2l_inj (a b : string) : s2l a = s2l b -> a = b.
Proof. intros H. rewrite <- (l2s_s2l a), <- (l2s_s2l b). now rewrite H. Qed.

(** ** The matcher agrees with its declarative reading *)

Module RegexFacts.
Import Regex RegexSem.

Lemma ascii_eqb_eq (a b : ascii) : ascii_eqb a b = true <-> a = b.
Proof. apply Ascii.eqb_eq. Qed.

Lemma in_bind {A B} (l : list A) (f : A -> list B) (y : B) :
  List.In y (bind l f) <-> exists x, List.In x l /\ List.In y (f x).
Proof. unfold bind. apply in_flat_map. Qed.

Lemma iter_nil step c s' c' : iter step [] c s' c' -> s' = [] /\ c' = c.
Proof.
  inversion 1; subst; [tauto | simpl in *; lia].
Qed.

Lemma star_iter fuel step (R : list ascii -> gmap nat (list ascii) ->
                               list ascii -> gmap nat (list ascii) -> Prop) :
  (forall s c s' c', List.In (s', c') (step s c) <-> R s c s' c') ->
  forall s c s' c', (List.length s <= fuel)%nat ->
    (List.In (s', c') (star fuel step s c) <-> iter R s c s' c').
Proof.
  intros Hstep. induction fuel as [|f IH]; intros s c s' c' Hlen.
  - destruct s; [|simpl in Hlen; lia]. simpl. split.
    + intros [E | []]. inversion E; subst. constructor.
    + intros H. apply iter_nil in H as [-> ->]. now left.
  - simpl. rewrite in_app_iff, in_bind. split.
    + intros [[[s1 c1] [H1 H2]] | [E | []]].
      * destruct (Nat.ltb_spec (List.length s1) (List.length s)) as [Hlt|];
          [|destruct H2].
        apply IH in H2; [|lia].
        eapply iter_more; eauto. now apply Hstep.
      * inversion E; subst. constructor.
    + intros H. inversion H; subst.
      * right. now left.
      * left. exists (s1, c1). split; [now apply Hstep|].
        destruct (Nat.ltb_spec (List.length s1) (List.length s)); [|lia].
        apply IH; [lia | assumption].
Qed.

Theorem run_matches ci r : forall s c s' c',
  List.In (s', c') (run ci r s c) <-> matches ci r s c s' c'.
Proof.
  induction r as [| a | | cs | cs | | r1 IH1 r2 IH2 | r1 IH1 | r1 IH1 | r1 IH1
                 | n r1 IH1]; intros s c s' c'; simpl.
  - split; [intros [E|[]]; inversion E; tauto | intros [-> ->]; now left].
  - destruct s as [|x s]; [split; [intros [] | intros (?&?&?); discriminate]|].
    destruct (ch_eq ci a x) eqn:E; simpl; split.
    + intros [H|[]]; inversion H; subst; eauto.
    + intros (y & H & _ & ->). inversion H; subst. now left.
    + intros [].
    + intros (y & H & Hy & _). inversion H; subst. congruence.
  - destruct s as [|x s]; [split; [intros [] | intros (?&?&?); discriminate]|].
    destruct (ascii_eqb x "010") eqn:E; simpl; split.
    + intros [].
    + intros (y & H & Hy & _). inversion H; subst. congruence.
    + intros [H|[]]; inversion H; subst; eauto.
    + intros (y & H & _ & ->). inversion H; subst. now left.
  - destruct s as [|x s]; [split; [intros [] | intros (?&?&?); discriminate]|].
    destruct (mem ci x cs) eqn:E; simpl; split.
    + intros [H|[]]; inversion H; subst; eauto.
    + intros (y & H & _ & ->). inversion H; subst. now left.
    + intros [].
    + intros (y & H & Hy & _). inversion H; subst. congruence.
  - destruct s as [|x s]; [split; [intros [] | intros (?&?&?); discriminate]|].
    destruct (mem ci x cs) eqn:E; simpl; split.
    + intros [].
    + intros (y & H & Hy & _). inversion H; subst. congruence.
    + intros [H|[]]; inversion H; subst; eauto.
    + intros (y & H & _ & ->). inversion H; subst. now left.
  - destruct s; simpl; split.
    + intros [E|[]]; inversion E; tauto.
    + intros (_ & -> & ->). now left.
    + intros [].
    + intros (? & _); discriminate.
  - rewrite in_bind. split.
    + intros [[s1 c1] [H1 H2]]. exists s1, c1. split; [now apply IH1 | now apply IH2].
    + intros (s1 & c1 & H1 & H2). exists (s1, c1).
      split; [now apply IH1 | now apply IH2].
  - rewrite in_app_iff, IH1. simpl. split.
    + intros [H | [E | []]]; [now left | right; inversion E; tauto].
    + intros [H | [-> ->]]; [now left | right; now left].
  - apply star_iter; [exact IH1 | lia].
  - rewrite in_bind. split.
    + intros [[s1 c1] [H1 H2]]. exists s1, c1. split; [now apply IH1|].
      eapply star_iter in H2; [exact H2 | exact IH1 | lia].
    + intros (s1 & c1 & H1 & H2). exists (s1, c1). split; [now apply IH1|].
      eapply star_iter; [exact IH1 | lia | exact H2].
  - rewrite in_map_iff. split.
    + intros [[s1 c1] [E H]]. inversion E; subst. exists c1.
      split; [now apply IH1 | reflexivity].
    + intros (c1 & H & ->). exists (s', c1). split; [reflexivity | now apply IH1].
Qed.

Lemma consumed_app (w s' : list ascii) : consumed (w ++ s') s' = w.
Proof.
  unfold consumed. rewrite length_app.
  replace (List.length w + List.length s' - List.length s')%nat
    with (List.length w + 0)%nat by lia.
  rewrite firstn_app_2. cbn. apply app_nil_r.
Qed.

Lemma consumed_all (s : list ascii) : consumed s [] = s.
Proof. rewrite <- (app_nil_r s) at 1. apply consumed_app. Qed.

Lemma ch_eq_exact (a x : ascii) : ch_eq false a x = true <-> x = a.
Proof. unfold ch_eq. rewrite ascii_eqb_eq. split; congruence. Qed.

Lemma matches_lits (w : list ascii) (r : re) s c s' c' :
  matches false (lits w r) s c s' c'
  <-> exists s1, s = w ++ s1 /\ matches false r s1 c s' c'.
Proof.
  revert s. induction w as [|a w IH]; intros s; cbn [lits fold_right matches].
  - split; [intros H; now exists s | intros (s1 & -> & H); exact H].
  - split.
    + intros (s1 & c1 & (x & -> & Hx & ->) & H).
      apply ch_eq_exact in Hx. subst x.
      apply IH in H as (s2 & -> & H). now exists s2.
    + intros (s1 & -> & H). exists (w ++ s1), c. split.
      * exists a. repeat split. now apply ch_eq_exact.
      * apply IH. now exists s1.
Qed.

(** One character of a class at a time. *)
Section Classes.
Context (ci : bool) (r : re) (P : ascii -> bool).
Hypothesis class :
  forall s c s' c',
    matches ci r s c s' c' <-> exists x, s = x :: s' /\ P x = true /\ c' = c.

Lemma iter_class w rest c :
  forallb P w = true -> iter (matches ci r) (w ++ rest) c rest c.
Proof.
  induction w as [|x w IH]; cbn [forallb app]; [constructor|].
  rewrite andb_true_iff. intros [Hx Hw].
  apply (iter_more _ _ _ (w ++ rest) c).
  - apply class. now exists x.
  - cbn. lia.
  - now apply IH.
Qed.

Lemma iter_class_inv s c s' c' :
  iter (matches ci r) s c s' c' ->
  exists w, s = w ++ s' /\ forallb P w = true /\ c' = c.
Proof.
  induction 1 as [s c | s c s1 c1 s2 c2 Hstep _ _ IH].
  - now exists [].
  - apply class in Hstep as (x & -> & Hx & ->).
    destruct IH as (w & -> & Hw & ->).
    exists (x :: w). cbn [forallb app]. now rewrite Hx, Hw.
Qed.

Lemma plus_class w rest c :
  w <> [] -> forallb P w = true -> matches ci (Plus r) (w ++ rest) c rest c.
Proof.
  destruct w as [|x w]; [congruence|]. intros _.
  cbn [forallb app matches]. rewrite andb_true_iff. intros [Hx Hw].
  exists (w ++ rest), c. split; [apply class; now exists x | now apply iter_class].
Qed.

Lemma plus_class_inv s c s' c' :
  matches ci (Plus r) s c s' c' ->
  exists w, s = w ++ s' /\ w <> [] /\ forallb P w = true /\ c' = c.
Proof.
  cbn [matches]. intros (s1 & c1 & Hstep & Hiter).
  apply class in Hstep as (x & -> & Hx & ->).
  apply iter_class_inv in Hiter as (w & -> & Hw & ->).
  exists (x :: w). cbn [forallb app]. rewrite Hx, Hw. repeat split. discriminate.
Qed.
End Classes.

Lemma class_NotSet cs s c s' c' :
  matches false (NotSet cs) s c s' c'
  <-> exists x, s = x :: s' /\ not_in cs x = true /\ c' = c.
Proof.
  cbn [matches]. unfold not_in.
  split; intros (x & ? & H & ?); exists x; repeat split; auto.
  - now rewrite H.
  - now apply negb_true_iff.
Qed.

Lemma class_Dot s c s' c' :
  matches false Dot s c s' c'
  <-> exists x, s = x :: s' /\ not_newline x = true /\ c' = c.
Proof.
  cbn [matches]. unfold not_newline.
  split; intros (x & ? & H & ?); exists x; repeat split; auto.
  - now rewrite H.
  - now apply negb_true_iff.
Qed.

(** Anchored patterns: the search is a match at the start. *)
Lemma find_anchored p url f :
  anchored p = true -> find p url = Some f ->
  before f = [] /\ matched f = consumed (s2l url) (after f) /\
  matches (ignore_case p) (body p) (s2l url) ∅ (after f) (groups f).
Proof.
  unfold find, match_here. intros -> H.
  destruct (run _ _ _ _) as [|[rest c] l] eqn:E; [discriminate|].
  injection H as <-. cbn. repeat split.
  apply run_matches. rewrite E. now left.
Qed.

Lemma find_anchored_ex p url s' c' :
  anchored p = true ->
  matches (ignore_case p) (body p) (s2l url) ∅ s' c' ->
  exists f, find p url = Some f.
Proof.
  unfold find, match_here. intros -> H. apply run_matches in H.
  destruct (run _ _ _ _) as [|[rest c] l]; [destruct H | eauto].
Qed.

Lemma test_anchored p url :
  anchored p = true ->
  (test p url = true
   <-> exists s' c', matches (ignore_case p) (body p) (s2l url) ∅ s' c').
Proof.
  intros Ha. unfold test. split.
  - destruct (find p url) as [f|] eqn:E; [|discriminate]. intros _.
    apply find_anchored in E as (_ & _ & H); eauto.
  - intros (s' & c' & H). now destruct (find_anchored_ex p url s' c' Ha H) as [f ->].
Qed.

End RegexFacts.

(** ** Running the worker's steps *)

Module Runs.
Import Platform Worker Spec Effects.
Local Open Scope Z_scope.

Lemma update_remove (m : gmap Z Rule) a b :
  update_rules m [a; b] [] = Some (delete a (delete b m)).
Proof. reflexivity. Qed.

Lemma update_replace1 (m : gmap Z Rule) (r : Rule) :
  update_rules m [id r] [r] = Some (<[id r := r]> (delete (id r) m)).
Proof.
  unfold update_rules, remove_rules. simpl. now rewrite lookup_delete_eq.
Qed.

Lemma update_replace2 (m : gmap Z Rule) (ra rb : Rule) :
  id ra <> id rb ->
  update_rules m [id ra; id rb] [ra; rb]
  = Some (<[id rb := rb]> (<[id ra := ra]> (delete (id ra) (delete (id rb) m)))).
Proof.
  intros Hne. unfold update_rules, remove_rules. simpl.
  rewrite lookup_delete_eq.
  rewrite lookup_insert_ne by congruence.
  rewrite lookup_delete_ne by congruence.
  rewrite lookup_delete_eq. reflexivity.
Qed.

(** Both outcomes of the platform's answer to an install call. *)
Ltac finish_run :=
  cbv zeta; destruct (dnr_accepts _ _ _ _);
  unfold console_error, emit, ret, report;
  cbn [dynamicRules sessionRules lastRelayOnline events];
  rewrite <- ?app_assoc, ?app_nil_r; reflexivity.

Section Steps.
Context (env : Env).

Lemma updateRules_run scope rm add m' dyn ses held evs :
  update_rules (match scope with Dynamic => dyn | Session => ses end) rm add = Some m' ->
  updateRules env scope rm add (Build_State dyn ses held evs) =
    let a := dnr_accepts env scope rm add in
    let dyn' := match scope with Dynamic => if a then m' else dyn | Session => dyn end in
    let ses' := match scope with Session => if a then m' else ses | Dynamic => ses end in
    (a, Build_State dyn' ses' held (evs ++ [EvInstall scope dyn' ses'])).
Proof.
  intros H. unfold updateRules.
  destruct scope; cbn [rules_of dynamicRules sessionRules]; rewrite H;
    destruct (dnr_accepts env _ rm add); reflexivity.
Qed.

Lemma setAllowBypassRules_run enabled dyn ses held evs :
  setAllowBypassRules env enabled (Build_State dyn ses held evs) =
    let a := dnr_accepts env Dynamic DYNAMIC_ALLOW_IDS
               (if enabled then [liveAllow; vodAllow] else []) in
    let dyn' := if a then (if enabled then allow_on dyn else allow_off dyn) else dyn in
    (tt, Build_State dyn' ses held
           (evs ++ [EvInstall Dynamic dyn' ses]
                ++ report a "Failed to update allow-bypass rules:")).
Proof.
  unfold setAllowBypassRules, updateDynamicRules, mbind'.
  destruct enabled.
  - rewrite (updateRules_run Dynamic _ _ (allow_on dyn))
      by (apply (update_replace2 dyn liveAllow vodAllow); discriminate).
    finish_run.
  - rewrite (updateRules_run Dynamic _ _ (allow_off dyn)) by apply update_remove.
    finish_run.
Qed.

Lemma addRedirectSessionRules_run address dyn ses held evs :
  addRedirectSessionRules env address (Build_State dyn ses held evs) =
    let a := dnr_accepts env Session SESSION_RULE_IDS
               (buildRedirectSessionRules address) in
    let ses' := if a then redirects_on (normalizeBase address) ses else ses in
    (tt, Build_State dyn ses' held
           (evs ++ [EvInstall Session dyn ses']
                ++ report a "Failed to add session redirect rules:")).
Proof.
  unfold addRedirectSessionRules, updateSessionRules, mbind'.
  rewrite (updateRules_run Session _ _ (redirects_on (normalizeBase address) ses))
    by (apply (update_replace2 ses (liveRule _) (vodRule _)); discriminate).
  finish_run.
Qed.

Lemma removeRedirectSessionRules_run dyn ses held evs :
  removeRedirectSessionRules env (Build_State dyn ses held evs) =
    let a := dnr_accepts env Session SESSION_RULE_IDS [] in
    let ses' := if a then redirects_off ses else ses in
    (tt, Build_State dyn ses' held
           (evs ++ [EvInstall Session dyn ses']
                ++ report a "Failed to remove session redirect rules:")).
Proof.
  unfold removeRedirectSessionRules, updateSessionRules, mbind'.
  rewrite (updateRules_run Session _ _ (redirects_off ses)) by apply update_remove.
  finish_run.
Qed.

Lemma addOrUpdateAdsBlockDynamicRule_run dyn ses held evs :
  addOrUpdateAdsBlockDynamicRule env (Build_State dyn ses held evs) =
    let a := dnr_accepts env Dynamic [AMAZON_ADS_BLOCK] [adsBlockRule] in
    let dyn' := if a then ads_on dyn else dyn in
    (tt, Build_State dyn' ses held
           (evs ++ [EvInstall Dynamic dyn' ses]
                ++ report a "Failed to set ads block rule:")).
Proof.
  unfold addOrUpdateAdsBlockDynamicRule, updateDynamicRules, mbind'.
  rewrite (updateRules_run Dynamic _ _ (ads_on dyn))
    by apply (update_replace1 dyn adsBlockRule).
  finish_run.
Qed.

Lemma removeOldDynamicRedirectRules_run dyn ses held evs :
  removeOldDynamicRedirectRules env (Build_State dyn ses held evs) =
    let a := dnr_accepts env Dynamic [1001; 1002] [] in
    let dyn' := if a then old_off dyn else dyn in
    (tt, Build_State dyn' ses held (evs ++ [EvInstall Dynamic dyn' ses])).
Proof.
  unfold removeOldDynamicRedirectRules, updateDynamicRules, mbind'.
  rewrite (updateRules_run Dynamic _ _ (old_off dyn)) by apply update_remove.
  reflexivity.
Qed.

Lemma isRelayOnline_run address dyn ses held evs :
  isRelayOnline env (Some address) (Build_State dyn ses held evs) =
    (probe env address,
     Build_State dyn ses held
       (evs ++ [EvFetch (normalizeBase (Some address) +:+ HEALTH_PATH)])).
Proof.
  unfold probe, isRelayOnline, mbind', emit.
  cbn [fst snd dynamicRules sessionRules lastRelayOnline events initial].
  destruct (fetch env _) as [|status body]; [reflexivity|].
  destruct (ok status); [|reflexivity]. cbn [negb].
  destruct body as [data|]; [|reflexivity].
  destruct (get_member data "online") as [[]|]; reflexivity.
Qed.

Lemma storage_address_run dyn ses held evs :
  storage_address env (Build_State dyn ses held evs) =
    (stored_address env, Build_State dyn ses held (evs ++ [EvStorageGet])).
Proof.
  unfold storage_address, stored_address, mbind', emit, ret.
  cbn [dynamicRules sessionRules lastRelayOnline events].
  destruct (storage_get env) as [|[a|]]; reflexivity.
Qed.

Lemma tabs_sendMessage_run tab payload dyn ses held evs :
  tabs_sendMessage env tab payload (Build_State dyn ses held evs) =
    (send_ok env tab, Build_State dyn ses held (evs ++ [EvSend tab payload])).
Proof. reflexivity. Qed.

Lemma send_and_forget tab payload dyn ses held evs :
  mbind' (tabs_sendMessage env tab payload) (fun _ => ret tt)
    (Build_State dyn ses held evs) =
    (tt, Build_State dyn ses held (evs ++ [EvSend tab payload])).
Proof. reflexivity. Qed.

Lemma forEach_broadcast tabs dyn ses held evs :
  forEach tabs (fun t =>
    match tab_id t, tab_url t with
    | Some i, Some _ =>
        if i =? 0 then ret tt
        else mbind' (tabs_sendMessage env i offlinePayload) (fun _ => ret tt)
    | _, _ => ret tt
    end) (Build_State dyn ses held evs) =
  (tt, Build_State dyn ses held
         (evs ++ flat_map (fun t =>
            match tab_id t, tab_url t with
            | Some i, Some _ => if i =? 0 then [] else [EvSend i offlinePayload]
            | _, _ => []
            end) tabs)).
Proof.
  revert evs. induction tabs as [|t tabs IH]; intros evs.
  - simpl. now rewrite app_nil_r.
  - cbn [forEach flat_map]. unfold mbind' at 1.
    destruct (tab_id t) as [i|]; [destruct (tab_url t) as [u|]|].
    + destruct (i =? 0).
      * unfold ret at 1. rewrite IH. reflexivity.
      * rewrite send_and_forget, IH. now rewrite <- app_assoc.
    + unfold ret at 1. rewrite IH. reflexivity.
    + unfold ret at 1. rewrite IH. reflexivity.
Qed.

Lemma broadcast_run dyn ses held evs :
  (match tabs_query env with
   | None => ret tt
   | Some tabs =>
       forEach tabs (fun t =>
         match tab_id t, tab_url t with
         | Some i, Some _ =>
             if i =? 0 then ret tt
             else mbind' (tabs_sendMessage env i offlinePayload) (fun _ => ret tt)
         | _, _ => ret tt
         end)
   end) (Build_State dyn ses held evs) =
  (tt, Build_State dyn ses held (evs ++ broadcast env)).
Proof.
  unfold broadcast. destruct (tabs_query env) as [tabs|].
  - apply forEach_broadcast.
  - unfold ret. now rewrite app_nil_r.
Qed.

Lemma sendOfflineMessage_run context dyn ses held evs :
  sendOfflineMessage env context (Build_State dyn ses held evs) =
    (tt, Build_State dyn ses held (evs ++ EvNotify context :: deliveries env context)).
Proof.
  unfold sendOfflineMessage, deliveries.
  unfold mbind' at 1. unfold emit at 1.
  cbn [dynamicRules sessionRules lastRelayOnline events].
  destruct context as [[[tab|] [u|]]|];
    try (rewrite broadcast_run; now rewrite <- app_assoc).
  destruct (regex_test false TWITCH_RE u); cbn [negb]; [|reflexivity].
  unfold mbind'. rewrite tabs_sendMessage_run.
  destruct (send_ok env tab); unfold emit, ret;
    cbn [dynamicRules sessionRules lastRelayOnline events];
    rewrite <- ?app_assoc; reflexivity.
Qed.

End Steps.

(** Symbolic execution of a listener on an explicit state: replace the next
    step by its result, then reduce the continuation. *)
Ltac run_step :=
  first
    [ rewrite removeOldDynamicRedirectRules_run
    | rewrite addOrUpdateAdsBlockDynamicRule_run
    | rewrite removeRedirectSessionRules_run
    | rewrite addRedirectSessionRules_run
    | rewrite setAllowBypassRules_run
    | rewrite isRelayOnline_run
    | rewrite storage_address_run
    | rewrite sendOfflineMessage_run ];
  cbv beta iota zeta.

Ltac run_listener :=
  unfold handle, onInstalled, onStartup, onStorageChanged, onAlarm,
    onNavigation, refreshRulesNow, applyRulesFromStorage, applyOnlineState,
    alarms_create, console_error, exec, mbind', get_lastRelayOnline,
    set_lastRelayOnline, emit, ret;
  cbv beta iota zeta;
  repeat first
    [ run_step
    | progress cbn [fst snd dynamicRules sessionRules lastRelayOnline events] ].

(** Lookups in the rule stores after inserts and deletes at the fixed
    identifiers. *)
Ltac lookups :=
  unfold redirects_on, redirects_off, allow_on, allow_off, ads_on, old_off,
    LIVE_REDIRECT, VOD_REDIRECT, LIVE_ALLOW, VOD_ALLOW, AMAZON_ADS_BLOCK in *;
  repeat (rewrite lookup_insert || rewrite lookup_delete);
  repeat case_decide; try congruence; try reflexivity; try lia.

Lemma redirects_on_off base (ses : gmap Z Rule) :
  redirects_on base (redirects_off ses) = redirects_on base ses.
Proof. apply map_eq; intros i. lookups. Qed.

(** Enter a listener whose guard lets the event through: [Haddr] says which
    address it reconciles against. *)
Ltac open_listener t Haddr :=
  let E := fresh "E" in let E' := fresh "E" in
  destruct t as [| | ?area [?newValue|] | ?name | ?d | ?d | ?tab ?status ?u];
  cbn [address_of] in Haddr; try discriminate Haddr;
  [ run_listener; rewrite Haddr; run_listener
  | run_listener; rewrite Haddr; run_listener
  | destruct (String.eqb area "sync") eqn:E; [|discriminate Haddr];
    injection Haddr as <-; run_listener; rewrite E; run_listener
  | destruct (String.eqb name HEALTHCHECK_ALARM) eqn:E; [|discriminate Haddr];
    run_listener; rewrite E; cbn [negb]; run_listener; rewrite Haddr; run_listener
  | destruct (frameId d =? 0) eqn:E; [|discriminate Haddr];
    destruct (isTwitchNavigation (Some (nav_url d))) eqn:E'; [|discriminate Haddr];
    cbn [andb] in Haddr;
    run_listener; rewrite E, E'; cbn [negb]; run_listener; rewrite Haddr; run_listener
  | destruct (frameId d =? 0) eqn:E; [|discriminate Haddr];
    destruct (isTwitchNavigation (Some (nav_url d))) eqn:E'; [|discriminate Haddr];
    cbn [andb] in Haddr;
    run_listener; rewrite E, E'; cbn [negb]; run_listener; rewrite Haddr; run_listener ].

(** *** Projections of the event log *)

Lemma notifications_app l1 l2 :
  notifications (l1 ++ l2) = notifications l1 ++ notifications l2.
Proof. apply flat_map_app. Qed.

Lemma installs_app l1 l2 : installs (l1 ++ l2) = installs l1 ++ installs l2.
Proof. apply flat_map_app. Qed.

Lemma fetches_app l1 l2 : fetches (l1 ++ l2) = fetches l1 ++ fetches l2.
Proof. apply flat_map_app. Qed.

Lemma notifications_report b msg : notifications (report b msg) = [].
Proof. now destruct b. Qed.

Lemma notifications_broadcast env : notifications (broadcast env) = [].
Proof.
  unfold broadcast. destruct (tabs_query env) as [tabs|]; [|reflexivity].
  induction tabs as [|t tabs IH]; [reflexivity|].
  cbn [flat_map]. rewrite notifications_app, IH, app_nil_r.
  destruct (tab_id t) as [i|]; [|reflexivity].
  destruct (tab_url t); [|reflexivity]. now destruct (i =? 0).
Qed.

Lemma notifications_deliveries env ctx : notifications (deliveries env ctx) = [].
Proof.
  unfold deliveries.
  destruct ctx as [[[tab|] [u|]]|]; try apply notifications_broadcast.
  destruct (regex_test false TWITCH_RE u); [|reflexivity].
  now destruct (send_ok env tab).
Qed.

Lemma installs_broadcast env : installs (broadcast env) = [].
Proof.
  unfold broadcast. destruct (tabs_query env) as [tabs|]; [|reflexivity].
  induction tabs as [|t tabs IH]; [reflexivity|].
  cbn [flat_map]. rewrite installs_app, IH, app_nil_r.
  destruct (tab_id t) as [i|]; [|reflexivity].
  destruct (tab_url t); [|reflexivity]. now destruct (i =? 0).
Qed.

Lemma installs_deliveries env ctx : installs (deliveries env ctx) = [].
Proof.
  unfold deliveries.
  destruct ctx as [[[tab|] [u|]]|]; try apply installs_broadcast.
  destruct (regex_test false TWITCH_RE u); [|reflexivity].
  now destruct (send_ok env tab).
Qed.

(** A listener that does not get to reconcile: its guard turned the event
    away, or the configuration could not be read. *)
Ltac closed_listener t Haddr :=
  destruct t as [| | ?area [?newValue|] | ?name | ?d | ?d | ?tab ?status ?u];
  cbn [address_of] in Haddr;
  [ run_listener; rewrite Haddr; run_listener
  | run_listener; rewrite Haddr; run_listener
  | run_listener; destruct (String.eqb area "sync"); [discriminate Haddr|]
  | run_listener
  | run_listener; destruct (String.eqb name HEALTHCHECK_ALARM);
    cbn [negb]; [run_listener; rewrite Haddr; run_listener|]
  | run_listener; destruct (frameId d =? 0); cbn [negb andb] in *;
    [destruct (isTwitchNavigation (Some (nav_url d))); cbn [negb] in *;
     [run_listener; rewrite Haddr; run_listener|]|]
  | run_listener; destruct (frameId d =? 0); cbn [negb andb] in *;
    [destruct (isTwitchNavigation (Some (nav_url d))); cbn [negb] in *;
     [run_listener; rewrite Haddr; run_listener|]|]
  | idtac ].

Lemma reconcile_step_notifies env t st :
  is_reconcile t = true ->
  let st' := exec (handle env t) st in
  List.length (notifications (events st'))
    = (List.length (notifications (events st))
       + offline_edges (lastRelayOnline st) [observed env t])%nat /\
  lastRelayOnline st'
    = match observed env t with Some o => Some o | None => lastRelayOnline st end.
Proof.
  intros Hrec st'. subst st'. unfold observed.
  destruct st as [dyn ses held evs].
  destruct (address_of env t) as [address|] eqn:Haddr; cbn [option_map offline_edges].
  - open_listener t Haddr;
      (destruct (probe env _); [|destruct held as [[|]|]]);
      run_listener;
      repeat first
        [ rewrite notifications_app | rewrite notifications_report
        | rewrite notifications_deliveries | rewrite length_app
        | progress cbn [notifications flat_map app List.length] ];
      split; try reflexivity; lia.
  - closed_listener t Haddr; try discriminate Hrec;
      run_listener;
      repeat first
        [ rewrite notifications_app | rewrite length_app
        | progress cbn [notifications flat_map app List.length] ];
      split; try reflexivity; lia.
Qed.

(** *** Sequences of runs, and what a reconcile leaves behind *)

Lemma run_all_cons env t steps st :
  run_all ((env, t) :: steps) st = run_all steps (exec (handle env t) st).
Proof. reflexivity. Qed.

Lemma offline_edges_cons held o obs :
  offline_edges held (o :: obs)
  = (offline_edges held [o]
     + offline_edges (match o with Some b => Some b | None => held end) obs)%nat.
Proof. destruct o as [[|]|]; destruct held as [[|]|]; simpl; lia. Qed.

Lemma both_active_frame (r : Route) (dyn dyn' ses ses' : gmap Z Rule) :
  (is_Some (dyn' !! allow_id r) -> is_Some (dyn !! allow_id r)) ->
  (is_Some (ses' !! redirect_id r) -> is_Some (ses !! redirect_id r)) ->
  both_active r dyn ses = false -> both_active r dyn' ses' = false.
Proof.
  unfold both_active, redirect_active, allow_active, present.
  intros Hd Hs H.
  destruct (ses' !! redirect_id r) eqn:E1; [|reflexivity].
  destruct (dyn' !! allow_id r) eqn:E2; [|reflexivity].
  destruct Hd as [? Hd]; [eauto|]. destruct Hs as [? Hs]; [eauto|].
  rewrite Hd, Hs in H. discriminate H.
Qed.

Lemma both_active_no_redirect (r : Route) (dyn ses : gmap Z Rule) :
  ses !! redirect_id r = None -> both_active r dyn ses = false.
Proof.
  unfold both_active, redirect_active, present. now intros ->.
Qed.

Lemma both_active_no_allow (r : Route) (dyn ses : gmap Z Rule) :
  dyn !! allow_id r = None -> both_active r dyn ses = false.
Proof.
  unfold both_active, redirect_active, allow_active, present. intros ->.
  apply andb_false_r.
Qed.

Lemma view_reconciled env t st address :
  installs_accepted env ->
  address_of env t = Some address ->
  view (exec (handle env t) st)
  = reconciled (ensures_ad_block t) address (probe env address) (view st).
Proof.
  intros Hacc Haddr. destruct st as [dyn ses held evs]. unfold view, reconciled.
  open_listener t Haddr; rewrite !Hacc;
    (destruct (probe env _); [|destruct held as [[|]|]]);
    run_listener; rewrite ?Hacc; cbn [ensures_ad_block];
    rewrite ?redirects_on_off; reflexivity.
Qed.

Lemma reconciled_once b1 b2 address online dyn ses held :
  b1 = true \/ b2 = false \/ startup_done dyn ->
  reconciled b2 address online (reconciled b1 address online (dyn, ses, held))
  = reconciled b1 address online (dyn, ses, held).
Proof.
  unfold reconciled, startup_done.
  intros [-> | [-> | (Ha & H1 & H2)]]; destruct online; try destruct b1;
    try destruct b2;
    (apply (f_equal2 pair); [apply (f_equal2 pair)|reflexivity]);
    apply map_eq; intros i; lookups.
Qed.

End Runs.

(** ** Normalizing the base address *)

Module Normalize.
Import Platform Worker Spec Patterns Regex RegexSem RegexFacts.

Lemma parse_SCHEME_RE :
  Regex.parse true SCHEME_RE
  = Some (Pattern true true
            (Seq (Lit "h") (Seq (Lit "t") (Seq (Lit "t") (Seq (Lit "p")
              (Seq (Opt (Lit "s")) (Seq (Lit ":") Eps))))))).
Proof. reflexivity. Qed.

(** Case analysis on every character test in the goal. *)
Ltac split_chars :=
  repeat match goal with
  | |- context [ch_eq ?ci ?a ?c] =>
      destruct (ch_eq ci a c) eqn:?; cbn [flat_map app andb orb]
  end.

Lemma scheme_test (s : string) : regex_test true SCHEME_RE s = has_scheme s.
Proof.
  unfold regex_test. rewrite parse_SCHEME_RE.
  unfold test, find, match_here. cbn [anchored ignore_case body].
  destruct s as [|c1 [|c2 [|c3 [|c4 [|c5 [|c6 s]]]]]];
    cbn [s2l list_ascii_of_string run bind flat_map app has_scheme];
    split_chars; reflexivity.
Qed.

Lemma or_default_nonempty input : or_default input <> "".
Proof. destruct input as [[|c s]|]; discriminate. Qed.

Lemma append_assoc (a b c : string) : (a +:+ b) +:+ c = a +:+ (b +:+ c).
Proof.
  induction a as [|x a IH]; [reflexivity|].
  change (String x ((a +:+ b) +:+ c) = String x (a +:+ (b +:+ c))).
  now rewrite IH.
Qed.

Lemma append_cons c (a b : string) : String c a +:+ b = String c (a +:+ b).
Proof. reflexivity. Qed.

Lemma append_nil (b : string) : "" +:+ b = b.
Proof. reflexivity. Qed.

Lemma append_nonempty (a b : string) : b <> "" -> a +:+ b <> "".
Proof. destruct a; [auto | discriminate]. Qed.

Lemma endsWith_cons c s suffix :
  endsWith (String c s) suffix = String.eqb (String c s) suffix || endsWith s suffix.
Proof. reflexivity. Qed.

Lemma endsWith_suffix (p x : string) : endsWith (p +:+ x) x = true.
Proof.
  induction p as [|c p IH].
  - destruct x; [reflexivity|].
    change ("" +:+ String a x) with (String a x).
    now rewrite endsWith_cons, String.eqb_refl.
  - change (String c p +:+ x) with (String c (p +:+ x)).
    rewrite endsWith_cons, IH. apply orb_true_r.
Qed.

Lemma endsWith_slash_app (a b : string) :
  b <> "" -> endsWith (a +:+ b) "/" = endsWith b "/".
Proof.
  intros Hb. induction a as [|c a IH]; [reflexivity|].
  change (String c a +:+ b) with (String c (a +:+ b)).
  rewrite endsWith_cons, IH.
  destruct (a +:+ b) eqn:E; [now apply append_nonempty in E|].
  assert (H : String.eqb (String c (String a0 s)) "/" = false)
    by (apply String.eqb_neq; discriminate).
  now rewrite H.
Qed.

Lemma slice_app (a b : string) :
  b <> "" -> slice_0_m1 (a +:+ b) = a +:+ slice_0_m1 b.
Proof.
  intros Hb. induction a as [|c a IH]; [reflexivity|].
  change (String c a +:+ b) with (String c (a +:+ b)).
  destruct (a +:+ b) as [|c' r] eqn:E.
  - destruct a; [now destruct Hb | discriminate E].
  - change (String c (slice_0_m1 (String c' r)) = String c (a +:+ slice_0_m1 b)).
    now rewrite IH.
Qed.

Lemma endsWith_slash_slice (s : string) :
  endsWith s "/" = true -> s = slice_0_m1 s +:+ "/".
Proof.
  induction s as [|c s IH]; [discriminate|].
  rewrite endsWith_cons. destruct s as [|c' s'].
  - cbn [endsWith]. rewrite orb_false_r. intros H.
    apply String.eqb_eq in H. now rewrite H.
  - assert (H0 : String.eqb (String c (String c' s')) "/" = false)
      by (apply String.eqb_neq; discriminate).
    rewrite H0. cbn [orb]. intros H.
    change (String c (String c' s') = String c (slice_0_m1 (String c' s') +:+ "/")).
    f_equal. now apply IH.
Qed.

Lemma endsWith_two_slashes (s : string) :
  endsWith s "/" = true -> endsWith (slice_0_m1 s) "/" = true ->
  endsWith s "//" = true.
Proof.
  intros H1 H2.
  rewrite (endsWith_slash_slice s H1), (endsWith_slash_slice _ H2), append_assoc.
  apply endsWith_suffix.
Qed.

Lemma has_scheme_slice (s : string) :
  has_scheme s = true -> endsWith s "/" = true ->
  has_scheme (slice_0_m1 s) = true.
Proof.
  intros H E. apply endsWith_slash_slice in E. revert H. rewrite E at 1.
  generalize (slice_0_m1 s) as p. clear.
  intros [|c1 [|c2 [|c3 [|c4 [|c5 [|c6 p]]]]]];
    rewrite ?append_cons, ?append_nil; cbn [has_scheme]; try discriminate.
  - rewrite !andb_true_iff. intros [_ H]. discriminate H.
  - rewrite !andb_true_iff. intros [H1 H]. split; [exact H1|].
    cbn in H. rewrite andb_false_r in *. exact H.
  - auto.
Qed.

Lemma normalizeBase_unfold input :
  normalizeBase input
  = (if scheme_qualified (or_default input) then "" else "http://")
    +:+ strip_slash (or_default input).
Proof.
  unfold normalizeBase, scheme_qualified, strip_slash.
  pose proof (or_default_nonempty input) as Hne.
  destruct (regex_test true SCHEME_RE (or_default input)); cbn [negb].
  - reflexivity.
  - rewrite endsWith_slash_app by exact Hne.
    destruct (endsWith (or_default input) "/"); [|reflexivity].
    now rewrite slice_app.
Qed.

Lemma strip_slash_clean (b : string) :
  String.eqb b "/" = false -> endsWith b "//" = false ->
  (b <> "" -> strip_slash b <> "") /\ endsWith (strip_slash b) "/" = false.
Proof.
  intros Hr Hd. unfold strip_slash. destruct (endsWith b "/") eqn:E.
  - pose proof (endsWith_slash_slice b E) as Hs. split.
    + intros _ H0. rewrite H0 in Hs. rewrite Hs in Hr. discriminate Hr.
    + destruct (endsWith (slice_0_m1 b) "/") eqn:E2; [|reflexivity].
      now rewrite (endsWith_two_slashes b E E2) in Hd.
  - now split.
Qed.

End Normalize.

(** ** The patterns of the rules *)

Module PatternFacts.
Import Platform Worker Spec Patterns Regex RegexSem RegexFacts.

Lemma parse_ADS_FILTER :
  Regex.parse false ADS_FILTER
  = Some (Pattern true false
      (lits (s2l "http") (Seq (Opt (Lit "s")) (lits (s2l "://")
        (Seq (Opt (Group 1 (Seq (Plus (NotSet ["."%char])) (Seq (Lit ".") Eps))))
          (lits (s2l "amazon-adsystem.com/") (Seq (Star Dot) Eps))))))).
Proof. reflexivity. Qed.

Lemma s2l_nonempty (s : string) : String.eqb s "" = false -> s2l s <> [].
Proof. destruct s; [discriminate | discriminate]. Qed.

Lemma ads_filter_covers (secure : bool) (label : option string) (path : string) :
  match label with Some l => dns_label l | None => true end = true ->
  regex_test false ADS_FILTER (ads_url secure label path) = true.
Proof.
  intros Hl. unfold regex_test. rewrite parse_ADS_FILTER.
  apply test_anchored; [reflexivity|]. cbn [ignore_case body].
  unfold ads_url. rewrite !s2l_app.
  set (host := s2l "amazon-adsystem.com/" ++ s2l path).
  set (sub := s2l match label with Some l => l +:+ "." | None => "" end).
  exists (s2l path),
    (match label with
     | Some l => <[1%nat := consumed (sub ++ host) host]> ∅
     | None => ∅
     end).
  apply matches_lits.
  exists ((if secure then ["s"%char] else []) ++ s2l "://" ++ sub ++ host).
  split; [now destruct secure|].
  cbn [matches]. exists (s2l "://" ++ sub ++ host), ∅. split.
  { destruct secure; [left; exists "s"%char; repeat split | right; split; reflexivity]. }
  apply matches_lits. exists (sub ++ host). split; [reflexivity|].
  cbn [matches]. exists host, (match label with
     | Some l => <[1%nat := consumed (sub ++ host) host]> ∅
     | None => ∅
     end). split.
  - subst sub. destruct label as [l|].
    + left. exists ∅. split; [|reflexivity].
      unfold dns_label in Hl. apply andb_true_iff in Hl as [Hne Hl].
      apply negb_true_iff in Hne.
      rewrite s2l_app. change (s2l ".") with ["."%char]. rewrite <- app_assoc.
      exists ("."%char :: host), ∅. split.
      * apply (plus_class false _ (not_in ["."%char]) (class_NotSet _));
          [now apply s2l_nonempty | exact Hl].
      * exists host, ∅. split; [exists "."%char; repeat split|]. split; reflexivity.
    + right. split; reflexivity.
  - apply matches_lits. exists (s2l path). split; [reflexivity|].
    cbn [matches]. eexists _, _. split; [apply iter_stop|]. split; reflexivity.
Qed.

Lemma parse_hls_filter (r : Route) base :
  Regex.parse false (regexFilter (condition (redirect_rule r base)))
  = Some (Pattern true false (hls_body r)).
Proof. destruct r; reflexivity. Qed.

(** What a match of the filter body says about the input and the groups. *)
Lemma hls_body_matches (r : Route) s s' c' :
  matches false (hls_body r) s ∅ s' c'
  <-> exists id q,
        s = s2l (usher_prefix r) ++ id ++ s2l ".m3u8" ++ q /\ s' = [] /\
        id <> [] /\ forallb (not_in ["/"; "?"]%char) id = true /\
        ((q = [] /\ c' = <[1%nat := id]> ∅) \/
         (exists q', q = "?"%char :: q' /\ forallb not_newline q' = true /\
                     c' = <[2%nat := q]> (<[1%nat := id]> ∅))).
Proof.
  unfold hls_body. rewrite matches_lits. split.
  - intros (s1 & -> & H). cbn [matches] in H.
    destruct H as (s2 & c2 & (c1 & (s3 & c3 & Hplus & -> & ->) & ->) & H).
    apply (plus_class_inv false _ _ (class_NotSet _)) in Hplus
      as (id & -> & Hne & Hid & ->).
    rewrite consumed_app in H.
    apply matches_lits in H as (s4 & -> & H). cbn [matches] in H.
    destruct H as (s5 & c5 & Hopt & s6 & c6 & (E5 & E6 & Ec6) & Es' & Ec').
    subst s5 s6 c6 s' c'.
    destruct Hopt as [(c7 & (s7 & c8 & (x & E4 & Hx & Ec8) & s8 & c9 & Hstar & Es8 & Ec9) & Ec5)
                     | [E4 Ec5]].
    + apply ch_eq_exact in Hx. subst x s4 c8 s8 c5 c7.
      apply (iter_class_inv false _ _ class_Dot) in Hstar as (q' & -> & Hq & ->).
      rewrite app_nil_r.
      exists id, ("?"%char :: q'). repeat split; auto.
      right. exists q'. repeat split; auto.
      now rewrite consumed_all.
    + subst s4 c5. exists id, []. repeat split; auto.
  - intros (id & q & -> & -> & Hne & Hid & Hq).
    exists (id ++ s2l ".m3u8" ++ q). split; [reflexivity|].
    cbn [matches].
    exists (s2l ".m3u8" ++ q), (<[1%nat := id]> ∅). split.
    + exists ∅. split; [|now rewrite consumed_app].
      exists (s2l ".m3u8" ++ q), ∅. split; [|split; reflexivity].
      now apply (plus_class false _ _ (class_NotSet _)).
    + apply matches_lits. exists q. split; [reflexivity|]. cbn [matches].
      exists [], c'. split.
      * destruct Hq as [[-> ->] | (q' & -> & Hq & ->)].
        -- right. split; reflexivity.
        -- left. exists (<[1%nat := id]> ∅). split.
           ++ exists q', (<[1%nat := id]> ∅). split; [exists "?"%char; repeat split|].
              exists [], (<[1%nat := id]> ∅). split; [|split; reflexivity].
              rewrite <- (app_nil_r q') at 1.
              now apply (iter_class false _ _ class_Dot).
           ++ now rewrite consumed_all.
      * exists [], c'. repeat split.
Qed.

(** Two ways to cut a text at its first [m] are the same. *)
Lemma split_at_mark (m : ascii) (l1 l2 q1 q2 : list ascii) :
  l1 ++ q1 = l2 ++ q2 ->
  forallb (fun x => negb (ascii_eqb x m)) l1 = true ->
  forallb (fun x => negb (ascii_eqb x m)) l2 = true ->
  (q1 = [] \/ exists t, q1 = m :: t) ->
  (q2 = [] \/ exists t, q2 = m :: t) ->
  l1 = l2 /\ q1 = q2.
Proof.
  revert l2. induction l1 as [|x l1 IH]; intros [|y l2] E H1 H2 Hq1 Hq2;
    cbn [app forallb] in *.
  - now split.
  - destruct Hq1 as [-> | [t ->]]; [discriminate E|].
    injection E as <- _. rewrite (proj2 (ascii_eqb_eq m m) eq_refl) in H2.
    discriminate H2.
  - destruct Hq2 as [-> | [t ->]]; [discriminate E|].
    injection E as -> _. rewrite (proj2 (ascii_eqb_eq m m) eq_refl) in H1.
    discriminate H1.
  - injection E as -> E.
    apply andb_true_iff in H1 as [_ H1]. apply andb_true_iff in H2 as [_ H2].
    destruct (IH l2 E H1 H2 Hq1 Hq2) as [-> ->]. now split.
Qed.

Lemma not_in_mark (w : list ascii) :
  forallb (not_in ["/"; "?"]%char) w = true ->
  forallb (fun x => negb (ascii_eqb x "?")) w = true.
Proof.
  induction w as [|x w IH]; [reflexivity|]. cbn [forallb].
  rewrite !andb_true_iff. intros [Hx Hw]. split; [|now apply IH].
  unfold not_in, mem in Hx. cbn [existsb ch_eq] in Hx.
  rewrite !negb_orb in Hx. rewrite !andb_true_iff in Hx. tauto.
Qed.

Lemma forallb_app' {A} (f : A -> bool) l1 l2 :
  forallb f l1 = true -> forallb f l2 = true -> forallb f (l1 ++ l2) = true.
Proof. intros H1 H2. rewrite forallb_app. now rewrite H1, H2. Qed.

Lemma hls_split_unique (id1 id2 q1 q2 : list ascii) :
  id1 ++ s2l ".m3u8" ++ q1 = id2 ++ s2l ".m3u8" ++ q2 ->
  forallb (not_in ["/"; "?"]%char) id1 = true ->
  forallb (not_in ["/"; "?"]%char) id2 = true ->
  (q1 = [] \/ exists t, q1 = "?"%char :: t) ->
  (q2 = [] \/ exists t, q2 = "?"%char :: t) ->
  id1 = id2 /\ q1 = q2.
Proof.
  intros E H1 H2 Hq1 Hq2. rewrite !app_assoc in E.
  apply (split_at_mark "?") in E as [E ->]; auto.
  - apply app_inv_tail in E. now split.
  - apply forallb_app'; [now apply not_in_mark | reflexivity].
  - apply forallb_app'; [now apply not_in_mark | reflexivity].
Qed.

Lemma hls_id_chars (id : string) :
  hls_id id = true <->
  s2l id <> [] /\ forallb (not_in ["/"; "?"]%char) (s2l id) = true.
Proof.
  unfold hls_id. rewrite andb_true_iff, negb_true_iff. split; intros [H1 H2]; split; auto.
  - now apply s2l_nonempty.
  - apply String.eqb_neq. intros ->. now apply H1.
Qed.

Lemma hls_query_chars (q : string) :
  hls_query q = true <->
  (s2l q = [] \/
   exists q', s2l q = "?"%char :: q' /\ forallb not_newline q' = true).
Proof.
  destruct q as [|c q]; cbn [hls_query s2l list_ascii_of_string].
  - split; [now left | reflexivity].
  - rewrite andb_true_iff, ascii_eqb_eq. split.
    + intros [-> H]. right. now exists (s2l q).
    + intros [E | (q' & E & H)]; [discriminate E|]. injection E as -> <-. now split.
Qed.

Lemma expand_plain (w rest : list ascii) (f : found) :
  forallb not_backslash w = true ->
  expand (w ++ rest) f = option_map (app w) (expand rest f).
Proof.
  induction w as [|x w IH]; cbn [forallb app].
  - intros _. now destruct (expand rest f).
  - rewrite andb_true_iff. intros [Hx Hw]. cbn [expand].
    unfold not_backslash in Hx. apply negb_true_iff in Hx. rewrite Hx.
    rewrite IH by exact Hw. now destruct (expand rest f).
Qed.

Lemma expand_groups_1_2 (path : list ascii) (f : found) :
  forallb not_backslash path = true ->
  expand (path ++ s2l "\1\2") f
  = Some (path ++ default [] (groups f !! 1%nat) ++ default [] (groups f !! 2%nat)).
Proof.
  intros H. rewrite expand_plain by exact H. cbn [s2l list_ascii_of_string expand].
  change (ascii_eqb "\" "\") with true. cbv iota.
  change (digit_of "1") with (Some 1%nat). change (digit_of "2") with (Some 2%nat).
  cbn. now rewrite app_nil_r.
Qed.

Lemma s2l_hls_url r id q :
  s2l (hls_url r id q) = s2l (usher_prefix r) ++ s2l id ++ s2l ".m3u8" ++ s2l q.
Proof. unfold hls_url. now rewrite !s2l_app. Qed.

Lemma hls_url_of_chars r (id q : list ascii) url :
  s2l url = s2l (usher_prefix r) ++ id ++ s2l ".m3u8" ++ q ->
  url = hls_url r (l2s id) (l2s q).
Proof.
  intros E. apply s2l_inj. now rewrite s2l_hls_url, !s2l_l2s.
Qed.

Lemma redirect_rule_matches (r : Route) (base url : string) :
  rule_matches (redirect_rule r base) url = true
  <-> exists id q, hls_id id = true /\ hls_query q = true /\ url = hls_url r id q.
Proof.
  unfold rule_matches. rewrite parse_hls_filter.
  rewrite test_anchored by reflexivity. cbn [ignore_case body]. split.
  - intros (s' & c' & H).
    apply hls_body_matches in H as (id & q & E & _ & Hne & Hid & Hq).
    exists (l2s id), (l2s q). split; [|split].
    + apply hls_id_chars. now rewrite s2l_l2s.
    + apply hls_query_chars. rewrite s2l_l2s.
      destruct Hq as [[-> _] | (q' & -> & Hq & _)]; [now left | right; eauto].
    + now apply hls_url_of_chars.
  - intros (id & q & Hid & Hq & ->).
    apply hls_id_chars in Hid as [Hne Hid].
    apply hls_query_chars in Hq.
    exists [].
    exists (match s2l q with [] => <[1%nat := s2l id]> ∅
                        | _ => <[2%nat := s2l q]> (<[1%nat := s2l id]> ∅) end).
    apply hls_body_matches. exists (s2l id), (s2l q).
    rewrite s2l_hls_url. repeat split; auto.
    destruct Hq as [-> | (q' & -> & Hq)]; [left; now split | right; eauto].
Qed.

Lemma redirect_rule_target (r : Route) (base id q : string) :
  forallb not_backslash (s2l base) = true ->
  hls_id id = true -> hls_query q = true ->
  redirect_target (redirect_rule r base) (hls_url r id q)
  = Some (base +:+ relay_path r +:+ id +:+ q).
Proof.
  intros Hbase Hid Hq.
  assert (Hm : rule_matches (redirect_rule r base) (hls_url r id q) = true)
    by (apply redirect_rule_matches; eauto).
  unfold rule_matches in Hm. unfold redirect_target.
  rewrite parse_hls_filter in *.
  assert (Hsub : action (redirect_rule r base)
                 = Redirect (base +:+ relay_path r +:+ "\1\2"))
    by now destruct r.
  rewrite Hsub. unfold substitute, test in *.
  destruct (find _ _) as [f|] eqn:E; [clear Hm | discriminate Hm].
  apply find_anchored in E as (Hbefore & _ & H); [|reflexivity].
  cbn [ignore_case body] in H.
  apply hls_body_matches in H as (id' & q' & E & Hafter & _ & Hid' & Hq').
  apply hls_id_chars in Hid as [_ Hid]. apply hls_query_chars in Hq.
  rewrite s2l_hls_url in E. apply app_inv_head in E.
  apply hls_split_unique in E as [<- <-]; auto.
  2:{ destruct Hq as [-> | (t & -> & _)]; eauto. }
  2:{ destruct Hq' as [[-> _] | (t & -> & _)]; eauto. }
  rewrite !s2l_app, app_assoc.
  rewrite expand_groups_1_2.
  2:{ apply forallb_app'; [exact Hbase | now destruct r]. }
  assert (Hg : default [] (groups f !! 1%nat) = s2l id /\
               default [] (groups f !! 2%nat) = s2l q).
  { destruct Hq' as [[-> ->] | (t & Et & _ & ->)].
    - rewrite lookup_insert_eq, lookup_insert_ne, lookup_empty by lia. now split.
    - rewrite lookup_insert_eq, lookup_insert_ne, lookup_insert_eq by lia. now split. }
  destruct Hg as [-> ->]. rewrite Hbefore, Hafter. cbn [app]. rewrite app_nil_r.
  f_equal. rewrite <- !app_assoc, !l2s_app, !l2s_s2l. reflexivity.
Qed.

Lemma parse_USHER_RE :
  Regex.parse false USHER_RE
  = Some (Pattern true false (lits (s2l "https://usher.ttvnw.net/") Eps)).
Proof. reflexivity. Qed.

Lemma parse_TWITCH_RE :
  Regex.parse false TWITCH_RE
  = Some (Pattern true false
      (lits (s2l "https://")
        (Seq (Opt (Group 1 (Seq (Plus (NotSet ["."%char])) (Seq (Lit ".") Eps))))
          (lits (s2l "twitch.tv/") Eps)))).
Proof. reflexivity. Qed.

Lemma not_in_dot (w : list ascii) :
  forallb (not_in ["."%char]) w = true ->
  forallb (fun x => negb (ascii_eqb x ".")) w = true.
Proof.
  induction w as [|x w IH]; [reflexivity|]. cbn [forallb].
  rewrite !andb_true_iff. intros [Hx Hw]. split; [|now apply IH].
  unfold not_in, mem in Hx. cbn [existsb ch_eq] in Hx.
  now rewrite orb_false_r in Hx.
Qed.

(** A usher URL is not a twitch.tv URL. *)
Lemma usher_not_twitch (u : string) :
  regex_test false USHER_RE u = true -> regex_test false TWITCH_RE u = false.
Proof.
  unfold regex_test. rewrite parse_USHER_RE, parse_TWITCH_RE.
  rewrite test_anchored by reflexivity. cbn [ignore_case body].
  intros (s' & c' & H). apply matches_lits in H as (s1 & Eu & _).
  destruct (test _ u) eqn:Et; [exfalso | reflexivity].
  apply test_anchored in Et as (s2 & c2 & H); [|reflexivity].
  cbn [ignore_case body] in H. rewrite Eu in H.
  apply matches_lits in H as (s3 & E & H).
  injection E as <-. cbn [matches] in H.
  destruct H as (s4 & c4 & Hopt & H).
  apply matches_lits in H as (s5 & -> & _).
  destruct Hopt as [(c5 & (s6 & c6 & Hplus & (s7 & c7 & (x & -> & Hx & _) & E7 & _)) & _)
                   | [E _]].
  - apply ch_eq_exact in Hx. subst x s7.
    apply (plus_class_inv false _ _ (class_NotSet _)) in Hplus
      as (w & E & _ & Hw & _).
    change ("u" :: "s" :: "h" :: "e" :: "r" :: "." :: "t" :: "t" :: "v" :: "n"
            :: "w" :: "." :: "n" :: "e" :: "t" :: "/" :: s1)%char
      with (s2l "usher" ++ "."%char :: s2l "ttvnw.net/" ++ s1) in E.
    apply (split_at_mark ".") in E as [_ E]; eauto.
    + discriminate E.
    + now apply not_in_dot.
  - discriminate E.
Qed.

End PatternFacts.

(** ** The steps of a run *)

Module OverlapFacts.
Import Platform Worker Spec Overlap Runs.
Local Open Scope Z_scope.

(** Played with nothing in between, the steps are the listener run, from
    any state and with any answers of the platform to the install calls. *)
Lemma alarm_steps_alone (env : Env) (address : string) (st : State) :
  stored_address env = Some address ->
  probe env address = true ->
  play (alarm_steps_online env address) st
  = exec (handle env (OnAlarm HEALTHCHECK_ALARM)) st.
Proof.
  intros Hs Hp. destruct st as [dyn ses held evs].
  unfold play, alarm_steps_online. cbn [fold_left].
  run_listener.
  change (negb (String.eqb HEALTHCHECK_ALARM HEALTHCHECK_ALARM)) with false.
  run_listener. rewrite Hs. run_listener. rewrite Hp. run_listener.
  reflexivity.
Qed.

Lemma navigation_steps_alone (env : Env) (address : string)
    (details : NavDetails) (st : State) :
  frameId details = 0 ->
  isTwitchNavigation (Some (nav_url details)) = true ->
  stored_address env = Some address ->
  probe env address = false ->
  play (navigation_steps_offline env address details) st
  = exec (handle env (OnBeforeNavigate details)) st.
Proof.
  intros Hf Hu Hs Hp. destruct st as [dyn ses held evs].
  unfold play, navigation_steps_offline. cbn [fold_left].
  run_listener. rewrite Hf, Hu. cbn [Z.eqb negb].
  run_listener. rewrite Hs. run_listener. rewrite Hp.
  destruct held as [[|]|]; run_listener; reflexivity.
Qed.

End OverlapFacts.

(** * The claims of the specification *)

Section Claims.
Import Platform Worker Spec Effects Examples Samples Overlap Runs.
Import Patterns Normalize PatternFacts.
Local Open Scope Z_scope.

(** ** Rule categories after a reconcile *)

(** C1, as the specification states it, fails in two ways.

    A rejected install call. The install functions catch the rejection, log
    it, and the run goes on to its end. With the relay Online and the call
    that adds the redirect rules rejected, an alarm run that starts with the
    allow-bypass rules installed removes them, installs no redirect rule and
    holds Online: the live route is left with neither category.

    Two runs that overlap. An alarm run finds the relay Online and a
    navigation run finds it Offline; both start on the empty stores, every
    call is accepted, and their steps alternate. Each list of steps, played
    alone, is the listener run. Alternating, the navigation run installs the
    allow-bypass rules after the alarm run has removed them, and the alarm
    run installs the redirect rules after the navigation run has removed
    them: both runs have ended, both routes hold both categories, and the
    held state is Online. *)
Lemma reconcile_leaves_neither_or_both :
  (let st' := exec (handle add_rejecting_env (OnAlarm HEALTHCHECK_ALARM))
                offline_state in
   address_of add_rejecting_env (OnAlarm HEALTHCHECK_ALARM)
   = Some DEFAULT_ADDRESS /\
   probe add_rejecting_env DEFAULT_ADDRESS = true /\
   lastRelayOnline st' = Some true /\
   none_active Live (dynamicRules st') (sessionRules st') = true /\
   exactly_one Live (dynamicRules st') (sessionRules st') = false) /\
  (let alarm := alarm_steps_online online_env DEFAULT_ADDRESS in
   let navigation :=
     navigation_steps_offline offline_env DEFAULT_ADDRESS twitch_navigation in
   let st' := play (alternate alarm navigation) initial in
   play alarm initial
   = exec (handle online_env (OnAlarm HEALTHCHECK_ALARM)) initial /\
   play navigation initial
   = exec (handle offline_env (OnBeforeNavigate twitch_navigation)) initial /\
   both_active Live (dynamicRules st') (sessionRules st') = true /\
   both_active Vod (dynamicRules st') (sessionRules st') = true /\
   exactly_one Live (dynamicRules st') (sessionRules st') = false /\
   exactly_one Vod (dynamicRules st') (sessionRules st') = false /\
   lastRelayOnline st' = Some true).
Proof. cbv zeta. repeat split; vm_compute; reflexivity. Qed.

(** C1, amended. After a reconcile taken alone (no call of another listener
    run lands between its own) whose configuration read and rule-install
    calls are all accepted, whichever listener runs it and whatever the
    state before, each route has exactly one category installed: on Online
    the redirect rule built for the normalized address is installed and the
    allow-bypass rule is absent; on Offline the allow-bypass rule is
    installed and the redirect rule is absent. *)
Theorem reconcile_exactly_one (env : Env) (t : Trigger) (st : State)
    (address : string) (r : Route) :
  installs_accepted env ->
  address_of env t = Some address ->
  let st' := exec (handle env t) st in
  (if probe env address
   then sessionRules st' !! redirect_id r
          = Some (redirect_rule r (normalizeBase (Some address))) /\
        dynamicRules st' !! allow_id r = None
   else dynamicRules st' !! allow_id r = Some (allow_rule r) /\
        sessionRules st' !! redirect_id r = None) /\
  exactly_one r (dynamicRules st') (sessionRules st') = true.
Proof.
  intros Hacc Haddr st'.
  assert (H : if probe env address
   then sessionRules st' !! redirect_id r
          = Some (redirect_rule r (normalizeBase (Some address))) /\
        dynamicRules st' !! allow_id r = None
   else dynamicRules st' !! allow_id r = Some (allow_rule r) /\
        sessionRules st' !! redirect_id r = None).
  2:{ split; [exact H|]. unfold exactly_one, redirect_active, allow_active, present.
      destruct (probe env address); destruct H as [-> ->]; reflexivity. }
  subst st'. destruct st as [dyn ses held evs].
  open_listener t Haddr; rewrite !Hacc;
    (destruct (probe env _); [|destruct held as [[|]|]]);
    run_listener; rewrite ?Hacc; destruct r;
    cbn [redirect_id allow_id redirect_rule allow_rule]; split; lookups.
Qed.

Lemma reconcile_exactly_one_witness :
  exactly_one Live
    (dynamicRules (exec (handle online_env OnStartup) initial))
    (sessionRules (exec (handle online_env OnStartup) initial)) = true.
Proof.
  exact (proj2 (reconcile_exactly_one online_env OnStartup initial
                  DEFAULT_ADDRESS Live (fun _ _ _ => eq_refl) eq_refl)).
Defined.

(** ** Edge-triggered notification *)

(** C2. Along any sequence of reconcile runs, the notification path is
    entered once for every observation of Offline made while the held state
    is not Offline (Unknown included), and never otherwise: the number of
    notifications grows by the number of transitions into Offline. *)
Theorem offline_notification_edge_triggered
    (steps : list (Env * Trigger)) (st : State) :
  Forall (fun '(_, t) => is_reconcile t = true) steps ->
  List.length (notifications (events (run_all steps st)))
  = (List.length (notifications (events st))
     + offline_edges (lastRelayOnline st)
         (map (fun '(env, t) => observed env t) steps))%nat.
Proof.
  revert st. induction steps as [|[env t] steps IH]; intros st Hall.
  - simpl. lia.
  - inversion Hall as [|? ? Ht Hrest]; subst.
    rewrite run_all_cons, IH by assumption.
    destruct (reconcile_step_notifies env t st Ht) as [Hn Hl].
    cbn [map].
    rewrite (offline_edges_cons _ (observed env t) (map _ steps)).
    rewrite Hn, Hl. lia.
Qed.

(** Three Offline observations in a row, from the Unknown state: one
    notification. *)
Lemma three_offline_observations_one_notification :
  List.length (notifications (events
    (run_all [(offline_env, OnAlarm HEALTHCHECK_ALARM);
              (offline_env, OnAlarm HEALTHCHECK_ALARM);
              (offline_env, OnAlarm HEALTHCHECK_ALARM)] initial))) = 1%nat.
Proof.
  rewrite offline_notification_edge_triggered.
  - vm_compute. reflexivity.
  - repeat constructor.
Defined.

(** ** The health probe *)

(** C3. The probe issues one GET to the normalized base address followed by
    /stat/ and classifies the outcome: a transport failure or a non-success
    status is Offline; a success status with a parsed body that carries a
    boolean online member is that member's value; a success status with any
    other body, or one that does not parse, is Online. *)
Theorem probe_classification (env : Env) (address : option string) (st : State) :
  let url := normalizeBase address +:+ HEALTH_PATH in
  let online := fst (isRelayOnline env address st) in
  let st' := snd (isRelayOnline env address st) in
  events st' = events st ++ [EvFetch url] /\
  (fetch env url = FetchThrows -> online = false) /\
  (forall status body,
     fetch env url = Response status body -> ok status = false ->
     online = false) /\
  (forall status data b,
     fetch env url = Response status (Parsed data) -> ok status = true ->
     get_member data "online" = Some (JBool b) -> online = b) /\
  (forall status data,
     fetch env url = Response status (Parsed data) -> ok status = true ->
     (forall b, get_member data "online" <> Some (JBool b)) -> online = true) /\
  (forall status,
     fetch env url = Response status Unparseable -> ok status = true ->
     online = true).
Proof.
  intros url online st'. subst online st'.
  unfold isRelayOnline, mbind', emit. fold url.
  cbn [dynamicRules sessionRules lastRelayOnline events].
  split.
  { destruct (fetch env url) as [|status body]; [reflexivity|].
    destruct (ok status); [|reflexivity]. cbn [negb].
    destruct body as [data|]; [|reflexivity].
    destruct (get_member data "online") as [[]|]; reflexivity. }
  repeat split.
  - intros ->. reflexivity.
  - intros status body -> ->. reflexivity.
  - intros status data b -> -> ->. reflexivity.
  - intros status data -> -> Hno. cbn [negb].
    destruct (get_member data "online") as [[| b | | | |]|]; try reflexivity.
    now destruct (Hno b).
  - intros status -> ->. reflexivity.
Qed.

(** A 200 response with body {"online": false} is Offline. *)
Lemma probe_classification_witness :
  fst (isRelayOnline degraded_env None initial) = false.
Proof.
  exact (proj1 (proj2 (proj2 (proj2 (probe_classification degraded_env None initial))))
           200 (JObj [("online", JBool false)]) false eq_refl eq_refl eq_refl).
Defined.

(** ** Rule states inside one reconcile *)

(** C4, as the specification states it, fails: reconciling an Online relay
    again (from the state the install listener left) removes the session
    redirects before anything else is installed, and the live route is left
    with no category until the redirects are added back. *)
Lemma reconcile_exposes_route_without_rules :
  view online_state = view (exec (handle online_env OnInstalled) initial) /\
  forallb (fun '(dyn, ses) => exactly_one Live dyn ses)
    (installs (events (exec (handle online_env (OnAlarm HEALTHCHECK_ALARM))
                         online_state))) = false /\
  existsb (fun '(dyn, ses) => none_active Live dyn ses)
    (installs (events (exec (handle online_env (OnAlarm HEALTHCHECK_ALARM))
                         online_state))) = true.
Proof. repeat split; vm_compute; reflexivity. Qed.

(** C4, amended. From a state in which a route does not have both categories
    active, and with every rule-install call accepted, no rule state in
    force after an install call of the reconcile has both categories active
    for that route. *)
Theorem reconcile_never_both (env : Env) (t : Trigger) (st : State)
    (address : string) (r : Route) :
  installs_accepted env ->
  address_of env t = Some address ->
  both_active r (dynamicRules st) (sessionRules st) = false ->
  exists new,
    events (exec (handle env t) st) = events st ++ new /\
    Forall (fun '(dyn, ses) => both_active r dyn ses = false) (installs new).
Proof.
  intros Hacc Haddr Hst. destruct st as [dyn ses held evs].
  cbn [dynamicRules sessionRules events] in *.
  open_listener t Haddr; rewrite !Hacc;
    (destruct (probe env _); [|destruct held as [[|]|]]);
    run_listener; rewrite ?Hacc; unfold report; rewrite <- ?app_assoc;
    (eexists; split; [reflexivity|]);
    repeat first
      [ rewrite installs_app | rewrite installs_deliveries
      | progress cbn [installs flat_map app] ];
    repeat constructor;
    destruct r; cbn [redirect_id allow_id] in *;
    first
      [ solve [apply both_active_no_redirect; cbn [redirect_id]; lookups]
      | solve [apply both_active_no_allow; cbn [allow_id]; lookups]
      | solve [refine (both_active_frame _ _ _ _ _ _ _ Hst);
               cbn [redirect_id allow_id]; lookups; auto] ].
Qed.

Lemma reconcile_never_both_witness :
  exists new,
    events (exec (handle online_env OnStartup) initial) = events initial ++ new /\
    Forall (fun '(dyn, ses) => both_active Live dyn ses = false) (installs new).
Proof.
  exact (reconcile_never_both online_env OnStartup initial DEFAULT_ADDRESS Live
           (fun _ _ _ => eq_refl) eq_refl eq_refl).
Defined.

(** ** A configuration store that cannot be read *)

(** C5, as the specification states it, fails: when the read throws, the
    install listener probes nothing, installs no ad-block rule and leaves the
    held state alone, unlike a run against the default address. *)
Lemma config_read_failure_abandons_reconcile :
  let st' := exec (handle unreadable_env OnInstalled) initial in
  fetches (events st') = [] /\
  dynamicRules st' !! AMAZON_ADS_BLOCK = None /\
  lastRelayOnline st' = None /\
  st' <> exec (handle (with_storage_get (Items None) unreadable_env) OnInstalled) initial.
Proof.
  cbv zeta. split; [|split; [|split]]; try (vm_compute; reflexivity).
  intros H. apply (f_equal lastRelayOnline) in H. vm_compute in H. discriminate.
Qed.

(** C5, amended. When the configuration read throws, the listener abandons
    the reconcile: session rules, held state, probes and notifications stay
    as they were, and of the dynamic rules only the two of prior versions can
    go (the startup cleanup, which does not read the store). The default
    address stands in only for an address that is absent from the store. *)
Theorem config_read_failure (env : Env) (t : Trigger) (st : State) :
  reads_config t = true ->
  (storage_get env = StorageThrows ->
   let st' := exec (handle env t) st in
   sessionRules st' = sessionRules st /\
   lastRelayOnline st' = lastRelayOnline st /\
   fetches (events st') = fetches (events st) /\
   notifications (events st') = notifications (events st) /\
   (forall i, i <> 1001 -> i <> 1002 ->
      dynamicRules st' !! i = dynamicRules st !! i)) /\
  (storage_get env = Items None ->
   handle env t st
   = handle (with_storage_get (Items (Some DEFAULT_ADDRESS)) env) t st).
Proof.
  intros Hreads. split.
  - intros Hthrow st'. subst st'. destruct st as [dyn ses held evs].
    assert (Hs : stored_address env = None)
      by (unfold stored_address; now rewrite Hthrow).
    destruct t as [| | ? [|] | name | d | d |]; try discriminate Hreads.
    + run_listener. rewrite Hs. run_listener.
      repeat first
        [ rewrite fetches_app | rewrite notifications_app
        | progress cbn [fetches notifications flat_map app] ].
      repeat split; try reflexivity; rewrite ?app_nil_r; try reflexivity.
      intros i H1 H2. destruct (dnr_accepts _ _ _ _); [|reflexivity]. lookups.
    + run_listener. rewrite Hs. run_listener.
      repeat first
        [ rewrite fetches_app | rewrite notifications_app
        | progress cbn [fetches notifications flat_map app] ].
      repeat split; try reflexivity; rewrite ?app_nil_r; try reflexivity.
      intros i H1 H2. destruct (dnr_accepts _ _ _ _); [|reflexivity]. lookups.
    + run_listener. destruct (String.eqb name HEALTHCHECK_ALARM); cbn [negb];
        [run_listener; rewrite Hs|]; run_listener;
        repeat first
          [ rewrite fetches_app | rewrite notifications_app
          | progress cbn [fetches notifications flat_map app] ];
        repeat split; rewrite ?app_nil_r; reflexivity.
    + run_listener. destruct (frameId d =? 0); cbn [negb];
        [destruct (isTwitchNavigation _); cbn [negb];
         [run_listener; rewrite Hs|]|]; run_listener;
        repeat first
          [ rewrite fetches_app | rewrite notifications_app
          | progress cbn [fetches notifications flat_map app] ];
        repeat split; rewrite ?app_nil_r; reflexivity.
    + run_listener. destruct (frameId d =? 0); cbn [negb];
        [destruct (isTwitchNavigation _); cbn [negb];
         [run_listener; rewrite Hs|]|]; run_listener;
        repeat first
          [ rewrite fetches_app | rewrite notifications_app
          | progress cbn [fetches notifications flat_map app] ];
        repeat split; rewrite ?app_nil_r; reflexivity.
  - intros Habsent. destruct env as [sg f acc tq so]. cbn in Habsent. subst sg.
    destruct t; reflexivity.
Qed.

Lemma config_read_failure_witness :
  sessionRules (exec (handle unreadable_env (OnAlarm HEALTHCHECK_ALARM)) online_state)
  = sessionRules online_state.
Proof.
  exact (proj1 (proj1 (config_read_failure unreadable_env
                         (OnAlarm HEALTHCHECK_ALARM) online_state eq_refl)
                  eq_refl)).
Defined.

(** ** Idempotence *)

(** C7, as the specification states it, fails. Only the install and startup
    listeners install the ad-block rule and drop the rules of prior
    versions. An alarm reconcile and then a startup reconcile, one after the
    other on the empty stores, read the same address and find the relay
    Online, every call accepted: after the first the ad-block rule is
    absent, after the last it is installed. *)
Lemma startup_after_alarm_changes_the_rules :
  let first := exec (handle online_env (OnAlarm HEALTHCHECK_ALARM)) initial in
  let last := run_all [(online_env, OnAlarm HEALTHCHECK_ALARM);
                       (online_env, OnStartup)] initial in
  address_of online_env (OnAlarm HEALTHCHECK_ALARM) = Some DEFAULT_ADDRESS /\
  address_of online_env OnStartup = Some DEFAULT_ADDRESS /\
  probe online_env DEFAULT_ADDRESS = true /\
  dynamicRules first !! AMAZON_ADS_BLOCK = None /\
  dynamicRules last !! AMAZON_ADS_BLOCK = Some adsBlockRule /\
  view last <> view first.
Proof.
  cbv zeta. repeat split; try (vm_compute; reflexivity).
  intros H. apply (f_equal (fun v => fst (fst v) !! AMAZON_ADS_BLOCK)) in H.
  vm_compute in H. discriminate H.
Qed.

(** C7, amended. For a sequence of reconcile runs taken one after the other
    (each ends before the next starts), with every install call accepted,
    that all observe the same health for the same base address, the
    installed rules and the held state after the last run are those after
    the first, provided that the sequence starts with an install or startup
    run, or the ad-block rule is installed and the rules of prior versions
    are absent before it, or no install or startup run follows the first
    run. *)
Theorem reconcile_idempotent (env1 : Env) (t1 : Trigger)
    (more : list (Env * Trigger)) (st : State)
    (address : string) (online : bool) :
  Forall (fun '(env, t) =>
            installs_accepted env /\
            address_of env t = Some address /\
            probe env address = online) ((env1, t1) :: more) ->
  ensures_ad_block t1 = true \/
  startup_done (dynamicRules st) \/
  Forall (fun '(_, t) => ensures_ad_block t = false) more ->
  view (run_all ((env1, t1) :: more) st) = view (exec (handle env1 t1) st).
Proof.
  intros Hall Hads. inversion Hall as [|? ? H1 Hmore]; subst.
  cbv beta iota in H1. destruct H1 as (Hacc1 & Haddr1 & Hp1).
  rewrite run_all_cons.
  assert (Hfix : view (exec (handle env1 t1) st)
                 = reconciled (ensures_ad_block t1) address (probe env1 address)
                     (view st)) by now apply view_reconciled.
  revert Hfix. generalize (exec (handle env1 t1) st) as st1.
  induction more as [|[env t] more IH]; intros st1 Hfix; [reflexivity|].
  inversion Hmore as [|? ? H2 Hmore']; subst.
  cbv beta iota in H2. destruct H2 as (Hacc & Haddr & Hp).
  rewrite run_all_cons.
  assert (Hstep : view (exec (handle env t) st1) = view st1).
  { rewrite (view_reconciled env t st1 address Hacc Haddr), Hfix, Hp.
    unfold view. apply reconciled_once.
    destruct Hads as [H | [H | H]]; [now left | right; now right |].
    right; left. now inversion H. }
  rewrite IH.
  - exact Hstep.
  - constructor; [auto|exact Hmore'].
  - destruct Hads as [H | [H | H]]; [now left | right; now left |].
    right; right. now inversion H.
  - exact Hmore'.
  - now rewrite Hstep.
Qed.

Lemma reconcile_idempotent_witness :
  view (run_all [(online_env, OnStartup);
                 (online_env, OnAlarm HEALTHCHECK_ALARM);
                 (online_env, OnStorageChanged "sync" (Some None));
                 (online_env, OnInstalled)] initial)
  = view (exec (handle online_env OnStartup) initial).
Proof.
  apply (reconcile_idempotent online_env OnStartup _ initial DEFAULT_ADDRESS true).
  - repeat constructor; vm_compute; reflexivity.
  - left. reflexivity.
Defined.

(** ** The ad-block rule *)

(** C6, as the specification states it, fails: the filter allows one label
    in front of the host, so a host two labels below amazon-adsystem.com is
    not matched. *)
Lemma ads_filter_misses_nested_subdomain :
  rule_matches adsBlockRule "https://a.b.amazon-adsystem.com/x" = false.
Proof. vm_compute. reflexivity. Qed.

(** C6, amended. The blocking rule matches every URL, over http and https,
    whose host is amazon-adsystem.com or one label below it; the startup
    listeners install it whatever the probe observes, and the other
    reconciling listeners leave it in place. *)
Theorem ads_rule_covers (secure : bool) (label : option string) (path : string)
    (env : Env) (t : Trigger) (st : State) (address : string) :
  match label with Some l => dns_label l | None => true end = true ->
  installs_accepted env ->
  address_of env t = Some address ->
  let st' := exec (handle env t) st in
  action adsBlockRule = Block /\
  rule_matches adsBlockRule (ads_url secure label path) = true /\
  dynamicRules st' !! AMAZON_ADS_BLOCK
  = if ensures_ad_block t then Some adsBlockRule
    else dynamicRules st !! AMAZON_ADS_BLOCK.
Proof.
  intros Hl Hacc Haddr st'. split; [reflexivity|]. split.
  - apply (ads_filter_covers secure label path Hl).
  - pose proof (view_reconciled env t st address Hacc Haddr) as Hv.
    apply (f_equal (fun v => fst (fst v))) in Hv.
    unfold view, reconciled in Hv. subst st'.
    destruct st as [dyn ses held evs]. cbn [fst dynamicRules sessionRules] in *.
    destruct (ensures_ad_block t), (probe env address);
      cbn [fst] in Hv; rewrite Hv; lookups.
Qed.

Lemma ads_rule_covers_witness :
  rule_matches adsBlockRule "https://aax.amazon-adsystem.com/e/dtb/bid" = true.
Proof.
  exact (proj1 (proj2 (ads_rule_covers true (Some "aax") "e/dtb/bid"
                         offline_env OnInstalled initial DEFAULT_ADDRESS
                         eq_refl (fun _ _ _ => eq_refl) eq_refl))).
Defined.

(** ** The normalized base address *)

(** C8, as the specification states it, fails: only one trailing slash is
    removed. *)
Lemma normalizeBase_keeps_a_trailing_slash :
  normalizeBase (Some "example.com//") = "http://example.com/" /\
  endsWith (normalizeBase (Some "example.com//")) "/" = true.
Proof. split; vm_compute; reflexivity. Qed.

(** C8, amended. For every input the normalized base is scheme-qualified:
    it is the input (the default address when the input is absent or empty)
    with http:// in front unless it already starts with http: or https:, and
    with one trailing slash, if present, removed. It has no trailing slash
    unless the input is a lone slash or ends in two slashes. *)
Theorem normalizeBase_normal_form (input : option string) :
  scheme_qualified (normalizeBase input) = true /\
  normalizeBase input
  = (if scheme_qualified (or_default input) then "" else "http://")
    +:+ strip_slash (or_default input) /\
  (String.eqb (or_default input) "/" = false ->
   endsWith (or_default input) "//" = false ->
   endsWith (normalizeBase input) "/" = false) /\
  normalizeBase (Some "example.com:9595") = "http://example.com:9595" /\
  normalizeBase (Some "http://localhost:9595/") = "http://localhost:9595" /\
  normalizeBase None = DEFAULT_ADDRESS /\
  normalizeBase (Some "") = DEFAULT_ADDRESS.
Proof.
  split; [|split; [apply normalizeBase_unfold|split]].
  - unfold normalizeBase, scheme_qualified.
    destruct (regex_test true SCHEME_RE (or_default input)) eqn:E; cbn [negb].
    + rewrite scheme_test in *.
      destruct (endsWith (or_default input) "/") eqn:E'; [|exact E].
      now apply has_scheme_slice.
    + assert (H : has_scheme ("http://" +:+ or_default input) = true) by reflexivity.
      rewrite scheme_test.
      destruct (endsWith _ "/") eqn:E'; [|exact H].
      now apply has_scheme_slice.
  - intros Hroot Hdouble. rewrite normalizeBase_unfold.
    destruct (strip_slash_clean _ Hroot Hdouble) as [H1 H2].
    destruct (scheme_qualified (or_default input)); [exact H2|].
    rewrite endsWith_slash_app; [exact H2|].
    apply H1, or_default_nonempty.
  - repeat split; vm_compute; reflexivity.
Qed.

Lemma normalizeBase_normal_form_witness :
  endsWith (normalizeBase (Some "localhost:9595/")) "/" = false.
Proof.
  exact (proj1 (proj2 (proj2 (normalizeBase_normal_form (Some "localhost:9595/"))))
           eq_refl eq_refl).
Defined.

(** ** The redirect rules *)

(** C9, as the specification states it, fails. The normalized address is
    pasted into the substitution as it is, and the substitution reads a
    backslash as an escape. With a backslash and the digit 1 in the address,
    the live rule puts the id in their place; of two backslashes in a row
    one is left. *)
Lemma backslash_in_base_is_read_as_escape :
  normalizeBase (Some "http://h\1") = "http://h\1" /\
  hls_id "chan" = true /\ hls_query "?x=1" = true /\
  redirect_target (liveRule (normalizeBase (Some "http://h\1")))
    (hls_url Live "chan" "?x=1")
  = Some "http://hchan/live/chan?x=1" /\
  redirect_target (liveRule (normalizeBase (Some "http:\\localhost:9595")))
    (hls_url Live "chan" "?x=1")
  = Some "http:\localhost:9595/live/chan?x=1".
Proof. repeat split; vm_compute; reflexivity. Qed.

(** C9, amended. The redirect rule of each route matches exactly the URLs
    https://usher.ttvnw.net/api/channel/hls/<id>.m3u8[?query] (live) and
    https://usher.ttvnw.net/vod/<id>.m3u8[?query] (vod), where <id> is not
    empty and has no slash and no question mark, and [?query] is empty or a
    question mark followed by anything on one line. When the normalized
    address [base] has no backslash, the rule sends them to
    <base>/live/<id>[?query] and <base>/vod/<id>[?query], with the id and the
    query carried over by the two capture groups. *)
Theorem redirect_rules_rewrite (address : option string) (r : Route) :
  let base := normalizeBase address in
  let rule := redirect_rule r base in
  List.In rule (buildRedirectSessionRules address) /\
  (forall url,
     rule_matches rule url = true
     <-> exists id q, hls_id id = true /\ hls_query q = true /\
                      url = hls_url r id q) /\
  (forallb not_backslash (s2l base) = true ->
   forall id q, hls_id id = true -> hls_query q = true ->
     redirect_target rule (hls_url r id q)
     = Some (base +:+ relay_path r +:+ id +:+ q)).
Proof.
  intros base rule. split; [|split].
  - destruct r; cbn; auto.
  - intros url. apply redirect_rule_matches.
  - intros Hbase id q. now apply redirect_rule_target.
Qed.

Lemma redirect_rules_rewrite_witness :
  redirect_target (liveRule "http://example.com:9595")
    "https://usher.ttvnw.net/api/channel/hls/somechannel.m3u8?sig=abc&token=1"
  = Some "http://example.com:9595/live/somechannel?sig=abc&token=1".
Proof.
  exact (proj2 (proj2 (redirect_rules_rewrite (Some "example.com:9595") Live))
           eq_refl "somechannel" "?sig=abc&token=1" eq_refl eq_refl).
Defined.

(** ** Notification on tab load *)

(** C10, as the specification states it, fails for usher URLs: the tab-load
    listener lets them through, but the notification path sends only to
    twitch.tv pages. *)
Lemma usher_tab_load_sends_nothing :
  view offline_state
  = view (exec (handle offline_env (OnAlarm HEALTHCHECK_ALARM)) initial) /\
  isTwitchNavigation (Some "https://usher.ttvnw.net/vod/1.m3u8") = true /\
  sends (events (exec (handle offline_env
                         (OnTabUpdated 7 (Some "complete")
                            (Some "https://usher.ttvnw.net/vod/1.m3u8")))
                   offline_state)) = [].
Proof. repeat split; vm_compute; reflexivity. Qed.

(** C10, amended. While the held state is Offline, every tab that finishes
    loading a URL the listener lets through leaves rules and held state
    alone; if the URL is a twitch.tv URL the fixed payload is sent to that
    tab (with one retry after 500 ms scheduled when delivery fails); if it is
    a usher URL the notification path is entered and nothing is sent. *)
Theorem tab_load_resends_offline_message (env : Env) (tab : Z) (u : string)
    (st : State) :
  lastRelayOnline st = Some false ->
  isTwitchNavigation (Some u) = true ->
  let st' := exec (handle env (OnTabUpdated tab (Some "complete") (Some u))) st in
  view st' = view st /\
  (regex_test false TWITCH_RE u = true ->
   events st' = events st ++
     [EvNotify (Some {| tabId := Some tab; url := Some u |});
      EvSend tab offlinePayload] ++
     (if send_ok env tab then [] else [EvTimeout 500 tab offlinePayload])) /\
  (regex_test false USHER_RE u = true ->
   events st' = events st ++
     [EvNotify (Some {| tabId := Some tab; url := Some u |})]).
Proof.
  intros Hheld Hnav st'. subst st'. destruct st as [dyn ses held evs].
  cbn [lastRelayOnline] in Hheld. subst held.
  unfold handle, onTabUpdated, exec, mbind', get_lastRelayOnline.
  cbv beta iota zeta. cbn [default from_option Datatypes.id lastRelayOnline].
  rewrite Hnav. cbn [negb lastRelayOnline].
  rewrite sendOfflineMessage_run.
  cbn [snd view dynamicRules sessionRules lastRelayOnline events].
  split; [reflexivity|]. unfold deliveries. split.
  - intros ->. now destruct (send_ok env tab).
  - intros Hu. now rewrite (usher_not_twitch u Hu).
Qed.

Lemma tab_load_resends_offline_message_witness :
  events (exec (handle offline_env
                  (OnTabUpdated 7 (Some "complete")
                     (Some "https://www.twitch.tv/somechannel")))
            offline_state)
  = [EvNotify (Some {| tabId := Some 7;
                       url := Some "https://www.twitch.tv/somechannel" |});
     EvSend 7 offlinePayload].
Proof.
  exact (proj1 (proj2 (tab_load_resends_offline_message offline_env 7
                         "https://www.twitch.tv/somechannel" offline_state
                         eq_refl eq_refl)) eq_refl).
Defined.

End Claims.

(** * Further properties of the worker

    What the patterns accept, what the normalized address is good for, and
    what a listener run does under every answer of the platform. *)

(** ** The watched sites *)

Module SiteFacts.
Import Platform Worker Spec Patterns Sites Regex RegexSem RegexFacts PatternFacts.

(** The optional label in front of a host: nothing, or a non-empty text
    without a dot, and a dot. *)
Lemma opt_label_matches s c s' c' :
  matches false opt_label s c s' c'
  <-> (s' = s /\ c' = c) \/
      exists w, s = w ++ "."%char :: s' /\ w <> [] /\
                forallb (not_in ["."%char]) w = true /\
                c' = <[1%nat := w ++ ["."%char]]> c.
Proof.
  unfold opt_label. cbn [matches]. split.
  - intros [(c1 & (s1 & c2 & Hplus & (s2 & c3 & (x & E1 & Hx & E2) & E3 & E4)) & E5) | H];
      [|now left].
    apply ch_eq_exact in Hx. subst x s1 c3 s2 c1 c'.
    apply (plus_class_inv false _ _ (class_NotSet _)) in Hplus as (w & E & Hne & Hw & E').
    subst s c2.
    right. exists w. repeat split; auto.
    replace (w ++ "."%char :: s') with ((w ++ ["."%char]) ++ s')
      by now rewrite <- app_assoc.
    now rewrite consumed_app.
  - intros [[-> ->] | (w & -> & Hne & Hw & ->)]; [now right|].
    left. exists c. split.
    + exists ("."%char :: s'), c. split.
      * now apply (plus_class false _ _ (class_NotSet _)).
      * exists s', c. split; [exists "."%char; repeat split | split; reflexivity].
    + replace (w ++ "."%char :: s') with ((w ++ ["."%char]) ++ s')
        by now rewrite <- app_assoc.
      now rewrite consumed_app.
Qed.

Lemma dns_label_chars (l : string) :
  dns_label l = true <-> s2l l <> [] /\ forallb (not_in ["."%char]) (s2l l) = true.
Proof.
  unfold dns_label. rewrite andb_true_iff, negb_true_iff.
  split; intros [H1 H2]; split; auto.
  - now apply s2l_nonempty.
  - apply String.eqb_neq. intros ->. now apply H1.
Qed.

Lemma s2l_label (label : option string) :
  s2l match label with Some l => l +:+ "." | None => "" end
  = match label with Some l => s2l l ++ ["."%char] | None => [] end.
Proof. destruct label; [apply s2l_app | reflexivity]. Qed.

(** What the twitch.tv pattern accepts. *)
Lemma twitch_test (u : string) :
  regex_test false TWITCH_RE u = true
  <-> exists label rest, label_ok label = true /\ u = twitch_url label rest.
Proof.
  unfold regex_test. rewrite parse_TWITCH_RE.
  rewrite test_anchored by reflexivity. cbn [ignore_case body].
  fold opt_label. split.
  - intros (s' & c' & H).
    apply matches_lits in H as (s1 & Eu & H). cbn [matches] in H.
    destruct H as (s2 & c2 & Hopt & H).
    apply matches_lits in H as (s3 & -> & _).
    apply opt_label_matches in Hopt as [[<- _] | (w & -> & Hne & Hw & _)].
    + exists None, (l2s s3). split; [reflexivity|].
      apply s2l_inj. unfold twitch_url. rewrite !s2l_app, s2l_l2s. exact Eu.
    + exists (Some (l2s w)), (l2s s3). split.
      * apply dns_label_chars. now rewrite s2l_l2s.
      * apply s2l_inj. unfold twitch_url. rewrite !s2l_app, !s2l_l2s, Eu.
        now rewrite <- !app_assoc.
  - intros (label & rest & Hl & ->).
    exists (s2l rest),
      (match label with Some l => <[1%nat := s2l l ++ ["."%char]]> ∅ | None => ∅ end).
    unfold twitch_url. rewrite !s2l_app, s2l_label.
    apply matches_lits. eexists. split; [reflexivity|]. cbn [matches].
    exists (s2l "twitch.tv/" ++ s2l rest),
      (match label with Some l => <[1%nat := s2l l ++ ["."%char]]> ∅ | None => ∅ end).
    split.
    + apply opt_label_matches. destruct label as [l|]; [right | left; now split].
      apply dns_label_chars in Hl as [Hne Hl]. exists (s2l l).
      rewrite <- app_assoc. repeat split; auto.
    + apply matches_lits. exists (s2l rest). repeat split.
Qed.

(** What the playlist-host pattern accepts. *)
Lemma usher_test (u : string) :
  regex_test false USHER_RE u = true <-> exists rest, u = usher_url rest.
Proof.
  unfold regex_test. rewrite parse_USHER_RE.
  rewrite test_anchored by reflexivity. cbn [ignore_case body]. split.
  - intros (s' & c' & H). apply matches_lits in H as (s1 & Eu & _).
    exists (l2s s1). apply s2l_inj. unfold usher_url. now rewrite s2l_app, s2l_l2s.
  - intros (rest & ->). exists (s2l rest), ∅. unfold usher_url. rewrite s2l_app.
    apply matches_lits. exists (s2l rest). repeat split.
Qed.

(** What the ad-block filter accepts. *)
Lemma ads_test (u : string) :
  regex_test false ADS_FILTER u = true
  <-> exists secure label path, label_ok label = true /\ u = ads_url secure label path.
Proof.
  split.
  - unfold regex_test. rewrite parse_ADS_FILTER.
    rewrite test_anchored by reflexivity. cbn [ignore_case body]. fold opt_label.
    intros (s' & c' & H).
    apply matches_lits in H as (s1 & Eu & H). cbn [matches] in H.
    destruct H as (s2 & c2 & Hs & H).
    apply matches_lits in H as (s3 & -> & H). cbn [matches] in H.
    destruct H as (s4 & c4 & Hopt & H).
    apply matches_lits in H as (s5 & -> & _).
    assert (Es : exists secure : bool,
               s1 = (if secure then ["s"%char] else []) ++ s2l "://" ++ s3).
    { destruct Hs as [(x & -> & Hx & _) | [<- _]].
      - apply ch_eq_exact in Hx. subst x. now exists true.
      - now exists false. }
    destruct Es as [secure ->].
    apply opt_label_matches in Hopt as [[<- _] | (w & -> & Hne & Hw & _)].
    + exists secure, None, (l2s s5). split; [reflexivity|].
      apply s2l_inj. unfold ads_url. rewrite !s2l_app, s2l_l2s, Eu.
      now destruct secure.
    + exists secure, (Some (l2s w)), (l2s s5). split.
      * apply dns_label_chars. now rewrite s2l_l2s.
      * apply s2l_inj. unfold ads_url. rewrite !s2l_app, !s2l_l2s, Eu.
        rewrite <- !app_assoc. now destruct secure.
  - intros (secure & label & path & Hl & ->). now apply ads_filter_covers.
Qed.

(** Two texts cut at their first dot. *)
Lemma cut_at_dot (w1 w2 t1 t2 : list ascii) :
  w1 ++ "."%char :: t1 = w2 ++ "."%char :: t2 ->
  forallb (not_in ["."%char]) w1 = true ->
  forallb (not_in ["."%char]) w2 = true ->
  w1 = w2 /\ t1 = t2.
Proof.
  intros E H1 H2.
  apply (split_at_mark ".") in E as [-> E]; eauto using not_in_dot.
  now injection E as ->.
Qed.

(** A watched URL: after https:// a text without a dot, a dot and then t. *)
Lemma watched_host (u : string) :
  regex_test false TWITCH_RE u = true \/ regex_test false USHER_RE u = true ->
  exists w t, s2l u = s2l "https://" ++ w ++ "."%char :: "t"%char :: t /\
              forallb (not_in ["."%char]) w = true.
Proof.
  rewrite twitch_test, usher_test.
  intros [(l1 & rest & Hl1 & ->) | (rest & ->)].
  - unfold twitch_url. rewrite !s2l_app, s2l_label. destruct l1 as [l|].
    + apply dns_label_chars in Hl1 as [_ Hl].
      exists (s2l l), (s2l "witch.tv/" ++ s2l rest).
      split; [|exact Hl]. now rewrite <- app_assoc.
    + exists (s2l "twitch"), (s2l "v/" ++ s2l rest). now split.
  - unfold usher_url. rewrite s2l_app.
    exists (s2l "usher"), (s2l "tvnw.net/" ++ s2l rest). now split.
Qed.

(** An ad-system URL: after the scheme a text without a dot, a dot and then
    c or a. *)
Lemma ads_host (u : string) :
  regex_test false ADS_FILTER u = true ->
  exists (secure : bool) w t,
    s2l u = s2l "http" ++ (if secure then ["s"%char] else [])
            ++ s2l "://" ++ w ++ "."%char :: t /\
    forallb (not_in ["."%char]) w = true /\
    exists t', t = "c"%char :: t' \/ t = "a"%char :: t'.
Proof.
  rewrite ads_test. intros (secure & l2 & path & Hl2 & ->).
  exists secure. unfold ads_url. rewrite !s2l_app, s2l_label.
  destruct l2 as [l|].
  - apply dns_label_chars in Hl2 as [_ Hl].
    exists (s2l l), (s2l "amazon-adsystem.com/" ++ s2l path).
    split; [|split; [exact Hl | eexists; right; reflexivity]].
    destruct secure; cbn [app s2l list_ascii_of_string]; now rewrite <- ?app_assoc.
  - exists (s2l "amazon-adsystem"), (s2l "com/" ++ s2l path).
    split; [|split; [reflexivity | eexists; left; reflexivity]].
    now destruct secure.
Qed.

End SiteFacts.

(** ** More on the normalized address *)

Module NormalizeFacts.
Import Platform Worker Spec Patterns Normalize.

Lemma normalizeBase_scheme (input : option string) :
  scheme_qualified (normalizeBase input) = true.
Proof.
  unfold normalizeBase, scheme_qualified.
  destruct (regex_test true SCHEME_RE (or_default input)) eqn:E; cbn [negb].
  - rewrite scheme_test in *.
    destruct (endsWith (or_default input) "/") eqn:E'; [|exact E].
    now apply has_scheme_slice.
  - assert (H : has_scheme ("http://" +:+ or_default input) = true) by reflexivity.
    rewrite scheme_test.
    destruct (endsWith _ "/") eqn:E'; [|exact H].
    now apply has_scheme_slice.
Qed.

Lemma slice_shorter (s : string) :
  s <> "" -> (String.length (slice_0_m1 s) < String.length s)%nat.
Proof.
  induction s as [|c s IH]; [congruence|]. intros _.
  destruct s as [|c' s']; [cbn; lia|].
  change (slice_0_m1 (String c (String c' s')))
    with (String c (slice_0_m1 (String c' s'))).
  cbn [String.length]. apply -> Nat.succ_lt_mono. apply IH. discriminate.
Qed.

(** A scheme-qualified text without a trailing slash is left as it is. *)
Lemma normalizeBase_keeps (b : string) :
  scheme_qualified b = true -> endsWith b "/" = false ->
  normalizeBase (Some b) = b.
Proof.
  intros Hs He. unfold normalizeBase.
  assert (Hd : or_default (Some b) = b).
  { destruct b; [|reflexivity]. discriminate Hs. }
  rewrite Hd. unfold scheme_qualified in Hs. rewrite Hs. cbn [negb].
  now rewrite He.
Qed.

Lemma normalizeBase_or_default (input : option string) :
  normalizeBase (Some (or_default input)) = normalizeBase input.
Proof. now destruct input as [[|c s]|]. Qed.

(** The probe and the redirect rules see an address through its normal
    form. *)
Lemma probe_normal_form (env env' : Env) (a b : string) :
  fetch env = fetch env' ->
  normalizeBase (Some a) = normalizeBase (Some b) ->
  probe env a = probe env' b.
Proof.
  intros Hf E. unfold probe, isRelayOnline. now rewrite E, Hf.
Qed.

Lemma rules_normal_form (a b : option string) :
  normalizeBase a = normalizeBase b ->
  buildRedirectSessionRules a = buildRedirectSessionRules b.
Proof. intros E. unfold buildRedirectSessionRules. now rewrite E. Qed.

End NormalizeFacts.

(** ** Every run of a listener *)

Module AllRuns.
Import Platform Worker Spec Effects Runs Ownership.
Local Open Scope Z_scope.

Lemma status_cases {A} (status : option string) (a b : A) :
  match status with Some "complete" => a | _ => b end
  = if is_complete status then a else b.
Proof.
  destruct status as [s|]; [|reflexivity]. unfold is_complete.
  destruct (String.eqb_spec s "complete") as [->|Hne]; [reflexivity|].
  repeat (destruct s as [|[[] [] [] [] [] [] [] []] s];
          try reflexivity; try congruence).
Qed.

Lemma onTabUpdated_run env tab status u dyn ses held evs :
  onTabUpdated env tab status u (Build_State dyn ses held evs) =
  (tt, Build_State dyn ses held
     (evs ++
      if is_complete status && isTwitchNavigation (Some (default "" u))
         && known_offline held
      then EvNotify (Some {| tabId := Some tab; url := Some (default "" u) |})
           :: deliveries env (Some {| tabId := Some tab; url := Some (default "" u) |})
      else [])).
Proof.
  unfold onTabUpdated. rewrite status_cases.
  destruct (is_complete status); cbn [andb]; [|unfold ret; now rewrite app_nil_r].
  cbv zeta. destruct (isTwitchNavigation _); cbn [andb negb];
    [|unfold ret; now rewrite app_nil_r].
  unfold mbind', get_lastRelayOnline. cbn [lastRelayOnline].
  destruct held as [[|]|]; cbn [known_offline];
    try (unfold ret; now rewrite app_nil_r).
  apply sendOfflineMessage_run.
Qed.

(** Every way a listener run can go: the guard turns the event away, the
    configuration cannot be read, or the run reconciles (then Online, or
    Offline from each held state). *)
Ltac run_tab_load := unfold handle, exec; rewrite onTabUpdated_run.

Ltac every_run env t st :=
  let Haddr := fresh "Haddr" in
  destruct st as [dyn ses held evs];
  destruct (address_of env t) as [address|] eqn:Haddr;
  [ open_listener t Haddr;
    (destruct (probe env _) eqn:Hprobe; [|destruct held as [[|]|]]);
    run_listener
  | closed_listener t Haddr;
    [ .. | run_tab_load; destruct (_ && known_offline _) eqn:Hload ];
    run_listener ].

(** Both answers of the platform to each install call. *)
Ltac split_answers :=
  repeat match goal with
  | |- context [dnr_accepts ?e ?s ?r ?a] => destruct (dnr_accepts e s r a)
  end.

(** A property of the rule stores that each of the worker's six replace
    operations keeps is kept by every listener run, whatever the platform
    answers. *)
Section Invariant.
Context (Q : gmap Z Rule -> gmap Z Rule -> Prop).
Hypothesis Q_ads : forall dyn ses, Q dyn ses -> Q (ads_on dyn) ses.
Hypothesis Q_old : forall dyn ses, Q dyn ses -> Q (old_off dyn) ses.
Hypothesis Q_allow_on : forall dyn ses, Q dyn ses -> Q (allow_on dyn) ses.
Hypothesis Q_allow_off : forall dyn ses, Q dyn ses -> Q (allow_off dyn) ses.
Hypothesis Q_redirects_off : forall dyn ses, Q dyn ses -> Q dyn (redirects_off ses).
Hypothesis Q_redirects_on :
  forall base dyn ses, Q dyn ses -> Q dyn (redirects_on base ses).

Lemma rules_invariant env t st :
  Q (dynamicRules st) (sessionRules st) ->
  Q (dynamicRules (exec (handle env t) st)) (sessionRules (exec (handle env t) st)).
Proof.
  every_run env t st.
  all: cbn [dynamicRules sessionRules]; intros H.
  all: split_answers.
  all: repeat first
      [ exact H | apply Q_ads | apply Q_old | apply Q_allow_on
      | apply Q_allow_off | apply Q_redirects_off | apply Q_redirects_on ].
Qed.

(** And so by every sequence of runs. *)
Lemma rules_invariant_all steps st :
  Q (dynamicRules st) (sessionRules st) ->
  Q (dynamicRules (run_all steps st)) (sessionRules (run_all steps st)).
Proof.
  revert st. induction steps as [|[env t] steps IH]; intros st H; [exact H|].
  rewrite run_all_cons. apply IH. now apply rules_invariant.
Qed.
End Invariant.

(** The same for the listeners other than install and startup, which use
    four of the six operations. *)
Section Reconciles.
Context (Q : gmap Z Rule -> gmap Z Rule -> Prop).
Hypothesis Q_allow_on : forall dyn ses, Q dyn ses -> Q (allow_on dyn) ses.
Hypothesis Q_allow_off : forall dyn ses, Q dyn ses -> Q (allow_off dyn) ses.
Hypothesis Q_redirects_off : forall dyn ses, Q dyn ses -> Q dyn (redirects_off ses).
Hypothesis Q_redirects_on :
  forall base dyn ses, Q dyn ses -> Q dyn (redirects_on base ses).

Lemma reconciles_invariant env t st :
  ensures_ad_block t = false ->
  Q (dynamicRules st) (sessionRules st) ->
  Q (dynamicRules (exec (handle env t) st)) (sessionRules (exec (handle env t) st)).
Proof.
  intros Ht. every_run env t st.
  all: try discriminate Ht.
  all: cbn [dynamicRules sessionRules]; intros H.
  all: split_answers.
  all: repeat first
      [ exact H | apply Q_allow_on | apply Q_allow_off
      | apply Q_redirects_off | apply Q_redirects_on ].
Qed.

Lemma reconciles_invariant_all steps st :
  Forall (fun '(_, t) => ensures_ad_block t = false) steps ->
  Q (dynamicRules st) (sessionRules st) ->
  Q (dynamicRules (run_all steps st)) (sessionRules (run_all steps st)).
Proof.
  revert st. induction steps as [|[env t] steps IH]; intros st Hall H; [exact H|].
  inversion Hall as [|? ? Ht Hrest]; subst.
  rewrite run_all_cons. apply IH; [exact Hrest|]. now apply reconciles_invariant.
Qed.
End Reconciles.

(** *** What no run touches *)

Lemma frame_all (steps : list (Env * Trigger)) (st : State) (i : Z) :
  (~ In i dynamic_ids ->
   dynamicRules (run_all steps st) !! i = dynamicRules st !! i) /\
  (~ In i session_ids ->
   sessionRules (run_all steps st) !! i = sessionRules st !! i).
Proof.
  apply (rules_invariant_all (fun dyn ses =>
    (~ In i dynamic_ids -> dyn !! i = dynamicRules st !! i) /\
    (~ In i session_ids -> ses !! i = sessionRules st !! i)));
    try (intros dyn ses [Hd Hs]; split; intros Hi;
         [rewrite <- (Hd Hi) | rewrite <- (Hs Hi)]);
    try (intros base dyn ses [Hd Hs]; split; intros Hi;
         [rewrite <- (Hd Hi) | rewrite <- (Hs Hi)]);
    try reflexivity; try tauto;
    cbn in Hi; lookups; tauto.
Qed.

Lemma frame_reconciles (steps : list (Env * Trigger)) (st : State) (i : Z) :
  Forall (fun '(_, t) => ensures_ad_block t = false) steps ->
  ~ In i DYNAMIC_ALLOW_IDS ->
  dynamicRules (run_all steps st) !! i = dynamicRules st !! i.
Proof.
  intros Hall Hi.
  apply (reconciles_invariant_all (fun dyn _ => dyn !! i = dynamicRules st !! i));
    try exact Hall; try reflexivity;
    try (intros dyn ses <-); try (intros base dyn ses <-);
    try reflexivity; cbn in Hi; lookups; tauto.
Qed.

(** A completed reconcile forgets what it found under its own identifiers. *)
Lemma views_converge (env : Env) (t : Trigger) (st1 st2 : State)
    (address : string) :
  installs_accepted env ->
  address_of env t = Some address ->
  (forall i, ~ In i (if ensures_ad_block t then dynamic_ids else DYNAMIC_ALLOW_IDS) ->
     dynamicRules st1 !! i = dynamicRules st2 !! i) ->
  (forall i, ~ In i session_ids -> sessionRules st1 !! i = sessionRules st2 !! i) ->
  view (exec (handle env t) st1) = view (exec (handle env t) st2).
Proof.
  intros Hacc Haddr Hd Hs.
  rewrite !(view_reconciled env t _ address Hacc Haddr).
  destruct st1 as [dyn1 ses1 held1 evs1], st2 as [dyn2 ses2 held2 evs2].
  unfold view, reconciled. cbn [dynamicRules sessionRules lastRelayOnline] in *.
  destruct (ensures_ad_block t), (probe env address);
    (apply (f_equal2 pair); [apply (f_equal2 pair)|reflexivity]);
    apply map_eq; intros i;
    first [ specialize (Hd i) | idtac ]; specialize (Hs i);
    cbn in Hd, Hs; lookups; first [apply Hd | apply Hs]; lia.
Qed.

(** *** More projections of the event log *)

Lemma deliveries_messages env ctx : forallb message_event (deliveries env ctx) = true.
Proof.
  assert (Hb : forallb message_event (broadcast env) = true).
  { unfold broadcast. destruct (tabs_query env) as [tabs|]; [|reflexivity].
    induction tabs as [|t tabs IH]; [reflexivity|].
    cbn [flat_map]. rewrite forallb_app, IH, andb_true_r.
    destruct (tab_id t) as [i|]; [|reflexivity].
    destruct (tab_url t); [|reflexivity]. now destruct (i =? 0). }
  unfold deliveries. destruct ctx as [[[tab|] [u|]]|]; try exact Hb.
  destruct (regex_test false TWITCH_RE u); [|reflexivity].
  now destruct (send_ok env tab).
Qed.

Lemma flat_map_skips {B} (f : Event -> list B) (l : list Event) :
  (forall e, message_event e = true -> f e = []) ->
  forallb message_event l = true -> flat_map f l = [].
Proof.
  intros Hf. induction l as [|e l IH]; [reflexivity|].
  cbn [forallb flat_map]. rewrite andb_true_iff. intros [He Hl].
  now rewrite (Hf e He), IH.
Qed.

Lemma alarms_deliveries env ctx : alarms (deliveries env ctx) = [].
Proof.
  apply flat_map_skips; [|apply deliveries_messages]. now intros [].
Qed.

Lemma fetches_deliveries env ctx : fetches (deliveries env ctx) = [].
Proof.
  apply flat_map_skips; [|apply deliveries_messages]. now intros [].
Qed.

Lemma errors_deliveries env ctx : errors (deliveries env ctx) = [].
Proof.
  apply flat_map_skips; [|apply deliveries_messages]. now intros [].
Qed.

Lemma sends_app l1 l2 : sends (l1 ++ l2) = sends l1 ++ sends l2.
Proof. apply flat_map_app. Qed.

Lemma sends_report b msg : sends (report b msg) = [].
Proof. now destruct b. Qed.

Lemma sends_broadcast env :
  sends (broadcast env)
  = map (fun i => (i, offlinePayload)) (listed (default [] (tabs_query env))).
Proof.
  unfold broadcast, listed. destruct (tabs_query env) as [tabs|]; [|reflexivity].
  cbn [default from_option Datatypes.id].
  induction tabs as [|t tabs IH]; [reflexivity|].
  cbn [flat_map]. rewrite sends_app, map_app, IH. f_equal.
  destruct (tab_id t) as [i|]; [|reflexivity].
  destruct (tab_url t); [|reflexivity]. now destruct (i =? 0).
Qed.

Lemma sends_deliveries env context :
  sends (deliveries env context)
  = map (fun i => (i, offlinePayload)) (recipients env context).
Proof.
  unfold deliveries, recipients, addressed.
  destruct context as [[[tab|] [u|]]|]; try apply sends_broadcast.
  destruct (regex_test false TWITCH_RE u); [|reflexivity].
  now destruct (send_ok env tab).
Qed.

Lemma timeouts_broadcast env : timeouts (broadcast env) = [].
Proof.
  unfold broadcast. destruct (tabs_query env) as [tabs|]; [|reflexivity].
  induction tabs as [|t tabs IH]; [reflexivity|].
  cbn [flat_map]. unfold timeouts in *. rewrite flat_map_app, IH, app_nil_r.
  destruct (tab_id t) as [i|]; [|reflexivity].
  destruct (tab_url t); [|reflexivity]. now destruct (i =? 0).
Qed.

End AllRuns.

(** ** Install calls that replace *)

Module ReplaceFacts.
Import Platform Worker.
Local Open Scope Z_scope.






End ReplaceFacts.

(** * Properties beyond the specification's claims *)

Section Coverage.
Import Platform Worker Spec Effects Examples Runs.
Import Patterns Normalize PatternFacts.
Import Ownership Sites Samples SiteFacts NormalizeFacts AllRuns ReplaceFacts.
Local Open Scope Z_scope.

(** ** normalizeBase *)

(** X1. The texts normalizeBase leaves as they are, are exactly the texts
    that start with http: or https: (in any letter case) and do not end in a
    slash. *)
Theorem normalizeBase_fixed_points (b : string) :
  normalizeBase (Some b) = b
  <-> scheme_qualified b = true /\ endsWith b "/" = false.
Proof.
  split; [|intros [Hs He]; now apply normalizeBase_keeps].
  intros E. assert (Hs : scheme_qualified b = true).
  { rewrite <- E. apply normalizeBase_scheme. }
  split; [exact Hs|].
  destruct (endsWith b "/") eqn:He; [exfalso | reflexivity].
  assert (Hne : b <> "") by (intros ->; discriminate Hs).
  rewrite normalizeBase_unfold in E.
  assert (Hd : or_default (Some b) = b) by (destruct b; [congruence | reflexivity]).
  rewrite Hd, Hs in E. unfold strip_slash in E. rewrite He in E.
  change ("" +:+ slice_0_m1 b) with (slice_0_m1 b) in E.
  pose proof (slice_shorter b Hne) as Hlt. rewrite E in Hlt. lia.
Qed.

(** X2. Normalizing twice is normalizing once, for every input that is not a
    lone slash and does not end in two slashes. *)
Theorem normalizeBase_idempotent (input : option string) :
  String.eqb (or_default input) "/" = false ->
  endsWith (or_default input) "//" = false ->
  normalizeBase (Some (normalizeBase input)) = normalizeBase input.
Proof.
  intros Hroot Hdouble. apply normalizeBase_keeps; [apply normalizeBase_scheme|].
  rewrite normalizeBase_unfold.
  destruct (strip_slash_clean _ Hroot Hdouble) as [H1 H2].
  destruct (scheme_qualified (or_default input)); [exact H2|].
  rewrite endsWith_slash_app; [exact H2|].
  apply H1, or_default_nonempty.
Qed.

Lemma normalizeBase_idempotent_witness :
  normalizeBase (Some (normalizeBase (Some "localhost:9595/")))
  = normalizeBase (Some "localhost:9595/").
Proof.
  exact (normalizeBase_idempotent (Some "localhost:9595/") eq_refl eq_refl).
Defined.

(** X3. Two configured addresses with the same normal form are the same to
    the worker: every listener run has the same result and leaves the same
    state and log, whether the address comes from the store or from a
    change event. *)
Theorem same_normal_form_same_behaviour (env : Env) (t : Trigger) (st : State)
    (a b : string) :
  normalizeBase (Some a) = normalizeBase (Some b) ->
  handle (with_storage_get (Items (Some a)) env) t st
  = handle (with_storage_get (Items (Some b)) env) t st /\
  forall area,
    handle env (OnStorageChanged area (Some (Some a))) st
    = handle env (OnStorageChanged area (Some (Some b))) st.
Proof.
  intros E. destruct st as [dyn ses held evs].
  pose proof (probe_normal_form (with_storage_get (Items (Some a)) env)
                (with_storage_get (Items (Some b)) env) a b eq_refl E) as Hp.
  pose proof (rules_normal_form (Some a) (Some b) E) as Hr.
  split.
  - destruct t as [| | area v | name | d | d | tab status u];
      try reflexivity; run_listener.
    3: destruct (String.eqb name HEALTHCHECK_ALARM); cbn [negb];
         [|reflexivity]; run_listener.
    4, 5: destruct (frameId d =? 0); cbn [negb]; [|reflexivity];
      destruct (isTwitchNavigation _); cbn [negb]; [|reflexivity]; run_listener.
    all: unfold stored_address; cbn [storage_get with_storage_get]; run_listener;
      rewrite Hp; (destruct (probe _ b); [|destruct held as [[|]|]]);
      run_listener; rewrite ?Hr, ?E; reflexivity.
  - clear Hp Hr. intros area. run_listener.
    destruct (String.eqb area "sync"); [|reflexivity]. run_listener.
    assert (E' : normalizeBase (Some (or_default (Some a)))
                 = normalizeBase (Some (or_default (Some b))))
      by now rewrite !normalizeBase_or_default.
    rewrite (probe_normal_form env env _ _ eq_refl E').
    (destruct (probe _ _); [|destruct held as [[|]|]]);
      run_listener; rewrite ?(rules_normal_form _ _ E'), ?E'; reflexivity.
Qed.

Lemma same_normal_form_same_behaviour_witness :
  handle (with_storage_get (Items (Some "localhost:9595")) online_env)
    OnStartup initial
  = handle (with_storage_get (Items (Some "http://localhost:9595/")) online_env)
      OnStartup initial.
Proof.
  exact (proj1 (same_normal_form_same_behaviour online_env OnStartup initial
                  "localhost:9595" "http://localhost:9595/" eq_refl)).
Defined.

(** ** The patterns *)

(** X4. isTwitchNavigation accepts exactly the URLs that start with
    https://twitch.tv/, with https://<label>.twitch.tv/ for a non-empty
    label without a dot, or with https://usher.ttvnw.net/; a missing URL is
    not accepted. *)
Theorem isTwitchNavigation_accepts (url : option string) :
  isTwitchNavigation url = true
  <-> exists u, url = Some u /\
        ((exists label rest, label_ok label = true /\ u = twitch_url label rest) \/
         (exists rest, u = usher_url rest)).
Proof.
  unfold isTwitchNavigation. rewrite orb_true_iff, twitch_test, usher_test. split.
  - destruct url as [u|]; cbn [default from_option Datatypes.id].
    + intros H. now exists u.
    + intros [(label & rest & _ & E) | (rest & E)]; exfalso.
      * apply (f_equal s2l) in E. unfold twitch_url in E. rewrite s2l_app in E.
        discriminate E.
      * discriminate E.
  - intros (u & -> & H). exact H.
Qed.

(** X5. The ad-block rule matches exactly the URLs that start with http://
    or https://, then amazon-adsystem.com/ with at most one label (a
    non-empty text without a dot, and a dot) in front of it. *)
Theorem ads_rule_matches_exactly (u : string) :
  rule_matches adsBlockRule u = true
  <-> exists secure label path,
        label_ok label = true /\ u = ads_url secure label path.
Proof. apply ads_test. Qed.

(** X6. The ad-block rule matches no URL that isTwitchNavigation accepts: it
    blocks neither a twitch.tv page nor a request to the playlist host. *)
Theorem ads_rule_spares_twitch (u : string) :
  isTwitchNavigation (Some u) = true ->
  rule_matches adsBlockRule u = false.
Proof.
  unfold isTwitchNavigation. cbn [default from_option Datatypes.id].
  rewrite orb_true_iff. intros H.
  apply watched_host in H as (w1 & t1 & Eu1 & Hw1).
  destruct (rule_matches adsBlockRule u) eqn:Hads; [exfalso | reflexivity].
  apply ads_host in Hads as (secure & w2 & t2 & Eu2 & Hw2 & t2' & Ht2).
  rewrite Eu1 in Eu2. destruct secure; [|discriminate Eu2].
  cbn [s2l list_ascii_of_string app] in Eu2.
  injection Eu2 as Eu2.
  apply cut_at_dot in Eu2 as [_ E]; auto.
  destruct Ht2 as [-> | ->]; discriminate E.
Qed.

Lemma ads_rule_spares_twitch_witness :
  rule_matches adsBlockRule "https://www.twitch.tv/amazon-adsystem.com/" = false.
Proof.
  exact (ads_rule_spares_twitch "https://www.twitch.tv/amazon-adsystem.com/" eq_refl).
Defined.

(** X7. No URL is matched by both redirect rules: a request the live rule
    redirects is not one the vod rule redirects, whatever their bases. *)
Theorem redirect_routes_disjoint (base1 base2 url : string) :
  rule_matches (liveRule base1) url = true ->
  rule_matches (vodRule base2) url = false.
Proof.
  intros H. apply (redirect_rule_matches Live) in H as (id & q & _ & _ & E).
  destruct (rule_matches (vodRule base2) url) eqn:Hv; [exfalso | reflexivity].
  apply (redirect_rule_matches Vod) in Hv as (id' & q' & _ & _ & E').
  rewrite E in E'. apply (f_equal s2l) in E'. rewrite !s2l_hls_url in E'.
  discriminate E'.
Qed.

Lemma redirect_routes_disjoint_witness :
  rule_matches (vodRule DEFAULT_ADDRESS)
    "https://usher.ttvnw.net/api/channel/hls/vod.m3u8" = false.
Proof.
  exact (redirect_routes_disjoint DEFAULT_ADDRESS DEFAULT_ADDRESS
           "https://usher.ttvnw.net/api/channel/hls/vod.m3u8" eq_refl).
Defined.

(** X8. The allow-bypass rule of a route matches the same URLs as the
    route's redirect rule (exactly the route's playlist URLs), applies to
    the same resource types, allows the request and has a higher priority
    than the redirect rule. *)
Theorem allow_rules_shadow_redirects (r : Route) (base url : string) :
  rule_matches (allow_rule r) url = rule_matches (redirect_rule r base) url /\
  (rule_matches (allow_rule r) url = true
   <-> exists id q, hls_id id = true /\ hls_query q = true /\ url = hls_url r id q) /\
  action (allow_rule r) = Allow /\
  priority (redirect_rule r base) < priority (allow_rule r) /\
  resourceTypes (condition (allow_rule r))
  = resourceTypes (condition (redirect_rule r base)).
Proof.
  assert (E : rule_matches (allow_rule r) url = rule_matches (redirect_rule r base) url)
    by now destruct r.
  split; [exact E|]. split; [rewrite E; apply redirect_rule_matches|].
  destruct r; repeat split.
Qed.

(** ** The rule stores under every answer of the platform *)

(** X9. Whatever the platform answers, no sequence of listener runs touches
    a dynamic rule whose identifier is not 1003, 3001, 3002, 1001 or 1002,
    or a session rule whose identifier is not 2001 or 2002. *)
Theorem foreign_rules_untouched (steps : list (Env * Trigger)) (st : State)
    (i : Z) :
  let st' := run_all steps st in
  (~ In i dynamic_ids -> dynamicRules st' !! i = dynamicRules st !! i) /\
  (~ In i session_ids -> sessionRules st' !! i = sessionRules st !! i).
Proof. cbv zeta. apply frame_all. Qed.

Lemma foreign_rules_untouched_witness :
  dynamicRules (run_all [(online_env, OnInstalled);
                         (rejecting_env, OnAlarm HEALTHCHECK_ALARM);
                         (offline_env, OnStartup)] shared_state) !! 42
  = Some (foreign_rule 42).
Proof.
  refine (eq_trans
    (proj1 (foreign_rules_untouched
              [(online_env, OnInstalled);
               (rejecting_env, OnAlarm HEALTHCHECK_ALARM);
               (offline_env, OnStartup)] shared_state 42) _)
    eq_refl).
  vm_compute. intuition discriminate.
Defined.

(** X10. Whatever the platform answers, a rule found in a store after a
    sequence of listener runs was there before, or is one of the worker's
    own rules (the ad-block rule and the two allow-bypass rules in the
    dynamic store, a live or vod redirect rule in the session store) under
    its own identifier. *)
Theorem installed_rules_are_own (steps : list (Env * Trigger)) (st : State)
    (i : Z) (rule : Rule) :
  let st' := run_all steps st in
  (dynamicRules st' !! i = Some rule ->
   dynamicRules st !! i = Some rule \/ (own_dynamic rule /\ id rule = i)) /\
  (sessionRules st' !! i = Some rule ->
   sessionRules st !! i = Some rule \/ (own_session rule /\ id rule = i)).
Proof.
  cbv zeta.
  apply (rules_invariant_all (fun dyn ses =>
    (dyn !! i = Some rule ->
     dynamicRules st !! i = Some rule \/ (own_dynamic rule /\ id rule = i)) /\
    (ses !! i = Some rule ->
     sessionRules st !! i = Some rule \/ (own_session rule /\ id rule = i))));
    try (intros dyn ses [Hd Hs]; split; [|exact Hs]);
    try (intros dyn ses [Hd Hs]; split; [exact Hd|]);
    try (intros base dyn ses [Hd Hs]; split; [exact Hd|]);
    try tauto; unfold own_dynamic, own_session;
    lookups; intros Hr; try discriminate Hr; try (injection Hr as <-); eauto 6.
Qed.

(** X11. An install or startup run whose calls are accepted and whose
    configuration read does not throw leaves the ad-block rule installed and
    no rule of a prior version; and once that is so, it stays so through
    every sequence of listener runs, whatever the platform answers. *)
Theorem startup_work_is_kept (env : Env) (t : Trigger)
    (steps : list (Env * Trigger)) (st : State) :
  (ensures_ad_block t = true -> installs_accepted env ->
   storage_get env <> StorageThrows ->
   startup_done (dynamicRules (exec (handle env t) st))) /\
  (startup_done (dynamicRules st) ->
   startup_done (dynamicRules (run_all steps st))).
Proof.
  split.
  - intros Ht Hacc Hread.
    assert (Haddr : exists address, address_of env t = Some address).
    { destruct t; try discriminate Ht; cbn [address_of]; unfold stored_address;
        destruct (storage_get env) as [|[a|]]; eauto; congruence. }
    destruct Haddr as [address Haddr].
    pose proof (view_reconciled env t st address Hacc Haddr) as Hv.
    apply (f_equal (fun v => fst (fst v))) in Hv. unfold view, reconciled in Hv.
    destruct st as [dyn ses held evs]. cbn [fst dynamicRules sessionRules] in *.
    rewrite Ht in Hv. unfold startup_done.
    destruct (probe env address); cbn [fst] in Hv; rewrite Hv; lookups; tauto.
  - apply (rules_invariant_all (fun dyn _ => startup_done dyn));
      unfold startup_done; intros; lookups; tauto.
Qed.

(** After a startup run, two runs on a platform that rejects every call and
    a run with the relay back leave the startup work in place. *)
Lemma startup_work_is_kept_witness :
  startup_done (dynamicRules
    (run_all [(rejecting_env, OnStartup);
              (rejecting_env, OnAlarm HEALTHCHECK_ALARM);
              (online_env, OnStorageChanged "sync" (Some None))]
       (exec (handle offline_env OnStartup) shared_state))).
Proof.
  apply (proj2 (startup_work_is_kept offline_env OnStartup _ _)).
  apply (proj1 (startup_work_is_kept offline_env OnStartup [] shared_state)).
  - reflexivity.
  - intros scope removeRuleIds addRules. reflexivity.
  - discriminate.
Defined.

(** X12. In a reconciling run every install call takes effect on its own:
    a route's allow-bypass rule is what the allow-bypass call asked for if
    the platform accepted that call and what it was before otherwise; a
    route's redirect rule is the one built for the address if the relay is
    Online and the add call was accepted, else absent if the remove call was
    accepted, else what it was. *)
Theorem installs_take_effect_independently (env : Env) (t : Trigger) (st : State)
    (address : string) (r : Route) :
  address_of env t = Some address ->
  let online := probe env address in
  let st' := exec (handle env t) st in
  dynamicRules st' !! allow_id r
  = (if dnr_accepts env Dynamic DYNAMIC_ALLOW_IDS
          (if online then [] else [liveAllow; vodAllow])
     then if online then None else Some (allow_rule r)
     else dynamicRules st !! allow_id r) /\
  sessionRules st' !! redirect_id r
  = (if online && dnr_accepts env Session SESSION_RULE_IDS
                    (buildRedirectSessionRules (Some address))
     then Some (redirect_rule r (normalizeBase (Some address)))
     else if dnr_accepts env Session SESSION_RULE_IDS [] then None
          else sessionRules st !! redirect_id r).
Proof.
  intros Haddr. cbv zeta. destruct st as [dyn ses held evs].
  open_listener t Haddr;
    (destruct (probe env _); [|destruct held as [[|]|]]);
    run_listener; cbn [andb]; split_answers;
    destruct r; cbn [redirect_id allow_id redirect_rule allow_rule];
    split; lookups.
Qed.

(** With every call rejected, the redirects of an earlier Online run stay
    installed while the relay is Offline. *)
Lemma installs_take_effect_independently_witness :
  sessionRules (exec (handle rejecting_env (OnAlarm HEALTHCHECK_ALARM)) online_state)
    !! redirect_id Live
  = Some (liveRule DEFAULT_ADDRESS).
Proof.
  exact (eq_trans
    (proj2 (installs_take_effect_independently rejecting_env
              (OnAlarm HEALTHCHECK_ALARM) online_state DEFAULT_ADDRESS Live eq_refl))
    eq_refl).
Defined.



(** ** The log of a run under every answer of the platform *)

(** X14. A listener run logs one error for each install call the platform
    rejects, with the message of the function that made the call, in call
    order; the cleanup of the prior versions' rules logs nothing. A
    configuration read that throws is logged by the install and startup
    listeners and by no other. Nothing else is logged. *)
Theorem rejected_installs_are_logged (env : Env) (t : Trigger) (st : State) :
  errors (events (exec (handle env t) st))
  = errors (events st) ++
    match address_of env t with
    | Some address =>
        (if ensures_ad_block t
         then complaint (dnr_accepts env Dynamic [AMAZON_ADS_BLOCK] [adsBlockRule])
                "Failed to set ads block rule:"
         else []) ++
        complaint (dnr_accepts env Session SESSION_RULE_IDS [])
          "Failed to remove session redirect rules:" ++
        complaint (dnr_accepts env Dynamic DYNAMIC_ALLOW_IDS
                     (if probe env address then [] else [liveAllow; vodAllow]))
          "Failed to update allow-bypass rules:" ++
        (if probe env address
         then complaint (dnr_accepts env Session SESSION_RULE_IDS
                           (buildRedirectSessionRules (Some address)))
                "Failed to add session redirect rules:"
         else [])
    | None =>
        if ensures_ad_block t then ["Failed to read storage/apply rules:"] else []
    end.
Proof.
  every_run env t st.
  all: rewrite ?Hprobe; cbn [ensures_ad_block]; unfold errors, report, complaint;
    repeat first
      [ rewrite flat_map_app | rewrite <- app_assoc
      | progress cbn [flat_map app] ].
  all: fold errors; rewrite ?errors_deliveries, ?app_nil_r.
  all: split_answers; cbn [flat_map app]; rewrite ?app_nil_r; reflexivity.
Qed.

(** X15. Whatever the platform answers, a listener run that reconciles
    probes once, at the normalized address followed by /stat/, and sets the
    held state to what the probe reported, also when install calls were
    rejected; a run that does not reconcile probes nothing and leaves the
    held state alone. *)
Theorem one_probe_per_run (env : Env) (t : Trigger) (st : State) :
  let st' := exec (handle env t) st in
  fetches (events st')
  = fetches (events st) ++
    match address_of env t with
    | Some address => [normalizeBase (Some address) +:+ HEALTH_PATH]
    | None => []
    end /\
  lastRelayOnline st'
  = match address_of env t with
    | Some address => Some (probe env address)
    | None => lastRelayOnline st
    end.
Proof.
  cbv zeta. every_run env t st.
  all: rewrite ?Hprobe; unfold fetches, report;
    repeat first
      [ rewrite flat_map_app | rewrite <- app_assoc
      | progress cbn [flat_map app] ].
  all: fold fetches; rewrite ?fetches_deliveries, ?app_nil_r.
  all: split_answers; cbn [flat_map app]; rewrite ?app_nil_r; split; reflexivity.
Qed.

(** X16. The install and startup listeners arm the health-check alarm once,
    under the name the alarm listener reacts to and with a period of one
    minute, whatever the platform answers (a configuration read that throws
    and rejected install calls included); no other listener arms an
    alarm. *)
Theorem startup_arms_the_alarm (env : Env) (t : Trigger) (st : State) :
  alarms (events (exec (handle env t) st))
  = alarms (events st) ++
    (if ensures_ad_block t
     then [(HEALTHCHECK_ALARM, HEALTHCHECK_PERIOD_MINUTES)] else []).
Proof.
  every_run env t st.
  all: cbn [ensures_ad_block]; unfold alarms, report;
    repeat first
      [ rewrite flat_map_app | rewrite <- app_assoc
      | progress cbn [flat_map app] ].
  all: fold alarms; rewrite ?alarms_deliveries, ?app_nil_r.
  all: split_answers; cbn [flat_map app]; rewrite ?app_nil_r; try reflexivity.
Qed.

(** ** Events the listeners turn away *)

(** X17. An event that a reconciling listener's guard turns away (a storage
    change outside the sync area or without an address entry, an alarm of
    another name, a navigation in a sub-frame or to a URL that
    isTwitchNavigation rejects) changes nothing: no rule, no held state and
    no call of the platform. The same holds for a tab update while the held
    state is not Offline, with a status other than complete, or with a URL
    that isTwitchNavigation rejects. *)
Theorem ignored_events_change_nothing (env : Env) (st : State) :
  (forall t, is_reconcile t = true -> storage_get env <> StorageThrows ->
     address_of env t = None -> exec (handle env t) st = st) /\
  (forall tab status u,
     lastRelayOnline st <> Some false \/ status <> Some "complete" \/
     isTwitchNavigation u = false ->
     exec (handle env (OnTabUpdated tab status u)) st = st).
Proof.
  split.
  - intros t Hrec Hread Haddr. destruct st as [dyn ses held evs].
    assert (Hs : stored_address env <> None).
    { unfold stored_address. destruct (storage_get env) as [|[a|]]; congruence. }
    closed_listener t Haddr; try discriminate Hrec; try contradiction;
      run_listener; reflexivity.
  - intros tab status u H. destruct st as [dyn ses held evs].
    run_tab_load.
    cbn [snd lastRelayOnline] in *.
    assert (E : is_complete status
                && isTwitchNavigation (Some (default "" u)) && known_offline held
                = false).
    { destruct H as [H | [H | H]].
      - destruct held as [[|]|]; try apply andb_false_r. congruence.
      - destruct status as [s|]; [|reflexivity]. unfold is_complete.
        destruct (String.eqb_spec s "complete"); [congruence | reflexivity].
      - replace (isTwitchNavigation (Some (default "" u))) with (isTwitchNavigation u)
          by now destruct u.
        rewrite H. now rewrite andb_false_r. }
    rewrite E. now rewrite app_nil_r.
Qed.

(** A navigation in a sub-frame of a twitch.tv page. *)
Lemma ignored_events_change_nothing_witness :
  exec (handle offline_env
          (OnBeforeNavigate {| frameId := 2; nav_tabId := 7;
                               nav_url := "https://www.twitch.tv/a" |}))
    online_state
  = online_state.
Proof.
  apply (proj1 (ignored_events_change_nothing offline_env online_state)).
  - reflexivity.
  - discriminate.
  - reflexivity.
Defined.

(** ** Convergence *)

(** X18. A reconcile taken alone, with every install call accepted, forgets
    what it found under the identifiers it replaces: from two states that
    agree on every session rule other than 2001 and 2002 and on every
    dynamic rule other than those the run replaces (1001, 1002, 1003, 3001
    and 3002 for an install or startup run; 3001 and 3002 for any other
    listener, so the two states agree on 1001, 1002 and 1003 as well), the
    same listener run with the same answers leaves the same rule stores and
    the same held state, whatever was installed under the replaced
    identifiers and whatever state was held before. *)
Theorem reconcile_converges (env : Env) (t : Trigger) (st1 st2 : State)
    (address : string) :
  installs_accepted env ->
  address_of env t = Some address ->
  (forall i, ~ In i (if ensures_ad_block t then dynamic_ids else DYNAMIC_ALLOW_IDS) ->
     dynamicRules st1 !! i = dynamicRules st2 !! i) ->
  (forall i, ~ In i session_ids -> sessionRules st1 !! i = sessionRules st2 !! i) ->
  view (exec (handle env t) st1) = view (exec (handle env t) st2).
Proof. apply views_converge. Qed.

(** An Offline reconcile at startup from the empty stores and from the
    stores an Online run left behind. *)
Lemma reconcile_converges_witness :
  view (exec (handle offline_env OnStartup) initial)
  = view (exec (handle offline_env OnStartup) online_state).
Proof.
  apply (reconcile_converges offline_env OnStartup initial online_state
           DEFAULT_ADDRESS).
  - intros scope removeRuleIds addRules. reflexivity.
  - reflexivity.
  - intros i Hi. cbn [dynamicRules initial online_state].
    rewrite lookup_empty, lookup_singleton_ne; [reflexivity|].
    intros <-. apply Hi. cbn. tauto.
  - intros i Hi. cbn [sessionRules initial online_state].
    rewrite lookup_empty. symmetry.
    rewrite lookup_insert_ne, lookup_singleton_ne; [reflexivity| |];
      intros <-; apply Hi; cbn; tauto.
Defined.

(** X19. When listener runs do not overlap (each ends before the next
    starts), a reconcile with every install call accepted repairs what the
    runs before it left behind: after any sequence of such runs, with
    install calls rejected or a configuration that could not be read among
    them, the rule stores and the held state the reconcile leaves are those
    it would have left without that sequence (for an install or startup run,
    or when no install or startup run is in the sequence). *)
Theorem reconcile_repairs (steps : list (Env * Trigger)) (env : Env)
    (t : Trigger) (st : State) (address : string) :
  installs_accepted env ->
  address_of env t = Some address ->
  ensures_ad_block t = true \/
  Forall (fun '(_, t') => ensures_ad_block t' = false) steps ->
  view (exec (handle env t) (run_all steps st)) = view (exec (handle env t) st).
Proof.
  intros Hacc Haddr Hcase.
  apply (views_converge env t _ _ address Hacc Haddr).
  - intros i Hi. destruct (ensures_ad_block t).
    + now apply frame_all.
    + destruct Hcase as [H|H]; [discriminate H|]. now apply frame_reconciles.
  - intros i Hi. now apply frame_all.
Qed.

(** Two runs on a platform that rejects every call, then the alarm with the
    relay back. *)
Lemma reconcile_repairs_witness :
  view (exec (handle online_env (OnAlarm HEALTHCHECK_ALARM))
          (run_all [(rejecting_env, OnAlarm HEALTHCHECK_ALARM);
                    (rejecting_env, OnStorageChanged "sync" (Some None))]
             offline_state))
  = view (exec (handle online_env (OnAlarm HEALTHCHECK_ALARM)) offline_state).
Proof.
  apply (reconcile_repairs _ online_env (OnAlarm HEALTHCHECK_ALARM) offline_state
           DEFAULT_ADDRESS).
  - intros scope removeRuleIds addRules. reflexivity.
  - reflexivity.
  - right. repeat constructor.
Defined.

(** X20. End to end, for two reconciles taken one after the other (the
    second starts when the first has ended, and no call of another run lands
    in between), every install call accepted: the first, which finds the
    relay Offline while the held state is not Offline, installs the
    allow-bypass rules, leaves no redirect rule and notifies once; the
    second, which finds the relay Online (at the same or another address),
    removes the allow-bypass rules, installs the redirect rules for that
    address, notifies nobody and holds Online. *)
Theorem offline_then_online (env1 env2 : Env) (t1 t2 : Trigger) (st : State)
    (a1 a2 : string) (r : Route) :
  installs_accepted env1 -> installs_accepted env2 ->
  address_of env1 t1 = Some a1 -> probe env1 a1 = false ->
  address_of env2 t2 = Some a2 -> probe env2 a2 = true ->
  lastRelayOnline st <> Some false ->
  let st1 := exec (handle env1 t1) st in
  let st2 := exec (handle env2 t2) st1 in
  (dynamicRules st1 !! allow_id r = Some (allow_rule r) /\
   sessionRules st1 !! redirect_id r = None /\
   List.length (notifications (events st1))
   = S (List.length (notifications (events st)))) /\
  (sessionRules st2 !! redirect_id r
   = Some (redirect_rule r (normalizeBase (Some a2))) /\
   dynamicRules st2 !! allow_id r = None /\
   List.length (notifications (events st2))
   = List.length (notifications (events st1)) /\
   lastRelayOnline st2 = Some true).
Proof.
  intros Hacc1 Hacc2 Haddr1 Hp1 Haddr2 Hp2 Hheld st1 st2.
  assert (Hrec : forall env t a, address_of env t = Some a -> is_reconcile t = true)
    by (intros ? [] ?; try reflexivity; discriminate).
  pose proof (view_reconciled env1 t1 st a1 Hacc1 Haddr1) as Hv1.
  pose proof (view_reconciled env2 t2 st1 a2 Hacc2 Haddr2) as Hv2.
  destruct (reconcile_step_notifies env1 t1 st (Hrec _ _ _ Haddr1)) as [Hn1 Hl1].
  destruct (reconcile_step_notifies env2 t2 st1 (Hrec _ _ _ Haddr2)) as [Hn2 Hl2].
  fold st1 in Hv1, Hn1, Hl1. fold st2 in Hv2, Hn2, Hl2.
  unfold observed in *. rewrite Haddr1 in *. rewrite Haddr2 in *.
  cbn [option_map offline_edges] in *. rewrite Hp1 in *. rewrite Hp2 in *.
  rewrite ?Hl1 in Hn2.
  unfold view, reconciled in Hv1, Hv2.
  destruct (ensures_ad_block t1), (ensures_ad_block t2);
    injection Hv1 as Hd1 Hs1 _; injection Hv2 as Hd2 Hs2 Hh2;
    rewrite Hd2, Hs2, Hd1, Hs1, Hh2;
    (split; [split; [|split] | split; [|split; [|split]]]);
    try reflexivity;
    try (destruct r; cbn [redirect_id allow_id redirect_rule allow_rule]; lookups);
    try lia;
    destruct (lastRelayOnline st) as [[|]|]; try congruence; lia.
Qed.

Lemma offline_then_online_witness :
  sessionRules (exec (handle online_env (OnAlarm HEALTHCHECK_ALARM))
                  (exec (handle offline_env OnStartup) initial))
    !! redirect_id Vod
  = Some (vodRule DEFAULT_ADDRESS).
Proof.
  refine (proj1 (proj2 (offline_then_online offline_env online_env OnStartup
            (OnAlarm HEALTHCHECK_ALARM) initial DEFAULT_ADDRESS DEFAULT_ADDRESS Vod
            _ _ eq_refl eq_refl eq_refl eq_refl _))).
  - intros scope removeRuleIds addRules. reflexivity.
  - intros scope removeRuleIds addRules. reflexivity.
  - discriminate.
Defined.

(** ** The notification path *)

(** X21. One call of sendOfflineMessage changes no rule and no held state
    and logs no error. With a context that has a tab id and a URL it writes
    the fixed payload once to that tab if the URL is a twitch.tv URL, and to
    nobody otherwise, and schedules one retry after 500 ms exactly when that
    write failed. With any other context it writes the payload once to every
    listed tab that has a non-zero id and a URL, in order, whether or not
    the writes succeed, with no retry; a tab query that throws sends
    nothing. *)
Theorem notification_delivery (env : Env) (context : option Context) (st : State) :
  let st' := exec (sendOfflineMessage env context) st in
  view st' = view st /\
  sends (events st')
  = sends (events st) ++ map (fun i => (i, offlinePayload)) (recipients env context) /\
  timeouts (events st')
  = timeouts (events st) ++
    match addressed context with
    | Some (tab, u) =>
        if regex_test false TWITCH_RE u && negb (send_ok env tab)
        then [(500, tab, offlinePayload)] else []
    | None => []
    end /\
  errors (events st') = errors (events st).
Proof.
  cbv zeta. destruct st as [dyn ses held evs]. unfold exec.
  rewrite sendOfflineMessage_run.
  cbn [snd view dynamicRules sessionRules lastRelayOnline events].
  split; [reflexivity|]. split; [|split].
  - change (EvNotify context :: deliveries env context)
      with ([EvNotify context] ++ deliveries env context).
    now rewrite !sends_app, sends_deliveries.
  - unfold timeouts. rewrite flat_map_app. f_equal. cbn [flat_map app].
    fold timeouts. unfold deliveries, addressed.
    destruct context as [[[tab|] [u|]]|]; try apply timeouts_broadcast.
    destruct (regex_test false TWITCH_RE u); [|reflexivity].
    now destruct (send_ok env tab).
  - unfold errors. rewrite flat_map_app. cbn [flat_map app]. fold errors.
    now rewrite errors_deliveries, app_nil_r.
Qed.

(** X22. A reconciling run enters the notification path exactly when it
    finds the relay Offline while the held state is not Offline, and then
    once, whatever the platform answers to the install calls: with the
    navigating tab and its URL as context for the two navigation listeners
    (so a navigation to the playlist host writes to nobody), with no context
    (a broadcast) for the others. In every other case it writes to no tab. *)
Theorem offline_edge_recipients (env : Env) (t : Trigger) (st : State)
    (address : string) :
  address_of env t = Some address ->
  let edge := negb (probe env address) && negb (known_offline (lastRelayOnline st)) in
  let st' := exec (handle env t) st in
  notifications (events st')
  = notifications (events st) ++ (if edge then [context_of t] else []) /\
  sends (events st')
  = sends (events st) ++
    (if edge
     then map (fun i => (i, offlinePayload)) (recipients env (context_of t))
     else []).
Proof.
  intros Haddr. cbv zeta. destruct st as [dyn ses held evs].
  cbn [lastRelayOnline].
  open_listener t Haddr;
    (destruct (probe env _); [|destruct held as [[|]|]]);
    run_listener; cbn [context_of negb andb known_offline];
    repeat first
      [ rewrite notifications_app | rewrite notifications_report
      | rewrite notifications_deliveries
      | rewrite sends_app | rewrite sends_report | rewrite sends_deliveries
      | rewrite app_nil_r
      | progress cbn [notifications sends flat_map app] ];
    split; reflexivity.
Qed.

(** A broadcast at startup reaches the two listed tabs that have an id;
    a navigation to the playlist host reaches nobody. *)
Lemma offline_edge_recipients_witness :
  sends (events (exec (handle crowded_env OnStartup) initial))
  = [(3, offlinePayload); (5, offlinePayload)] /\
  sends (events (exec (handle crowded_env (OnBeforeNavigate usher_navigation))
                   initial)) = [].
Proof.
  split.
  - exact (proj2 (offline_edge_recipients crowded_env OnStartup initial
                    "localhost:9595/" eq_refl)).
  - exact (proj2 (offline_edge_recipients crowded_env
                    (OnBeforeNavigate usher_navigation) initial
                    "localhost:9595/" eq_refl)).
Defined.

End Coverage.
